(** * LDA-Shakira: the data layer of [app.py]

    A shallow embedding of the loading, key-normalising and query code of
    [src/app.py], and the properties its specification states about it.

    Conventions of the model.
    - A Python [str] is the list of its code points; column names and
      messages, which are ASCII, are Rocq strings.
    - A float64 is [option Q]: [None] is NaN, [Some q] a finite value taken
      as an exact rational (rounding is outside the model).  A nullable
      [Int64] is [option Z], [None] being [<NA>].
    - An exception is a value of [exn]; code that can raise returns a
      [result].
    - What Python and pandas take from tables that are not part of the
      repository (the Unicode character database, numpy's sorting routine)
      is a type-class parameter. *)

From Stdlib Require Import ZArith NArith QArith Qreduction Lia Lqa.
From Stdlib Require Import String Ascii DecimalString DecimalZ.
From stdpp Require Import base option list sorting gmap strings.

Local Open Scope Z_scope.

(* ================================================================= *)
(** * Part I: definitions *)
(* ================================================================= *)

(** ** Python values, exceptions *)

Definition pystr := list N.

Inductive pyval :=
| PStr (s : pystr)
| PNum (q : Q)
| PNaN.

Definition float := option Q.
Definition Int64 := option Z.

Inductive exn :=
| UnicodeDecodeError
| ParserError
| FileNotFoundError
| ValueError (msg : string)
| KeyError (msg : string)
| TypeError (msg : string)
| KeyboardInterrupt.

(** [except Exception] catches every class but the ones deriving from
    [BaseException] only. *)
Definition is_Exception (e : exn) : bool :=
  match e with KeyboardInterrupt => false | _ => true end.

Definition is_UnicodeDecodeError (e : exn) : bool :=
  match e with UnicodeDecodeError => true | _ => false end.

Inductive result (A : Type) :=
| Ok (a : A)
| Raise (e : exn).
Arguments Ok {A} a.
Arguments Raise {A} e.

Global Instance result_ret : MRet result := λ A a, Ok a.
Global Instance result_bind : MBind result := λ A B k m,
  match m with Ok a => k a | Raise e => Raise e end.
Global Instance result_fmap : FMap result := λ A B f m,
  match m with Ok a => Ok (f a) | Raise e => Raise e end.

(** ** The Unicode character database, as far as [normalizar] reads it *)

(** The tables behind [str.strip], [str.lower] and [unicodedata] ship with
    the interpreter, not with the repository: [isspace c] is
    [chr(c).isspace()], [str_lower] is [str.lower] (a function of the whole
    string, because of the final-sigma rule), [decomposition c] the full
    compatibility decomposition of one code point, [combining c] its
    canonical combining class. *)
Class UCD := {
  isspace : N → bool;
  str_lower : pystr → pystr;
  decomposition : N → list N;
  combining : N → N
}.

Section str_methods.
Context `{UCD}.

Fixpoint str_lstrip (s : pystr) : pystr :=
  match s with
  | c :: s' => if isspace c then str_lstrip s' else s
  | [] => []
  end.

(** [s.strip()] *)
Definition str_strip (s : pystr) : pystr :=
  reverse (str_lstrip (reverse (str_lstrip s))).
End str_methods.

Module unicodedata.
Section unicodedata.
Context `{UCD}.

(** Canonical ordering, as [nfd_nfkd] does it: a character of non-zero
    class moves left past the characters of greater class before it, and
    stops at a starter.  [racc] is the ordered prefix, last character
    first. *)
Fixpoint canonical_insert (c : N) (racc : list N) : list N :=
  match racc with
  | [] => [c]
  | p :: racc' =>
      if (combining c =? 0)%N || (combining p =? 0)%N
         || (combining p <=? combining c)%N
      then c :: racc
      else p :: canonical_insert c racc'
  end.

Definition canonical_order (s : pystr) : pystr :=
  reverse (foldl (λ racc c, canonical_insert c racc) [] s).

(** [unicodedata.normalize("NFKD", s)] *)
Definition normalize_NFKD (s : pystr) : pystr :=
  canonical_order (s ≫= decomposition).
End unicodedata.
End unicodedata.

(** ** [normalizar] (app.py, lines 15-20) *)

Section normalizar.
Context `{UCD}.

Definition normalizar (s : pyval) : pyval :=
  match s with
  | PStr s =>
      let s := str_lower (str_strip s) in
      let s := filter (λ c, combining c = 0%N) (unicodedata.normalize_NFKD s) in
      PStr s
  | _ => s
  end.
End normalizar.

(** The entries of UnicodeData.txt for U+0000..U+00FF, for the combining
    marks their decompositions use, and for U+2122.  Other code points are
    left as they are, so this instance speaks for strings over the listed
    ones only. *)
Definition with_mark (base mark : N) : list N := [base; mark].

Definition latin1_decompositions : list (N * list N) :=
  [ (0xA0, [0x20]); (0xA8, [0x20; 0x308]); (0xAA, [0x61]);
    (0xAF, [0x20; 0x304]); (0xB2, [0x32]); (0xB3, [0x33]);
    (0xB4, [0x20; 0x301]); (0xB5, [0x3BC]); (0xB8, [0x20; 0x327]);
    (0xB9, [0x31]); (0xBA, [0x6F]);
    (0xBC, [0x31; 0x2044; 0x34]); (0xBD, [0x31; 0x2044; 0x32]);
    (0xBE, [0x33; 0x2044; 0x34]);
    (0xC0, with_mark 0x41 0x300); (0xC1, with_mark 0x41 0x301);
    (0xC2, with_mark 0x41 0x302); (0xC3, with_mark 0x41 0x303);
    (0xC4, with_mark 0x41 0x308); (0xC5, with_mark 0x41 0x30A);
    (0xC7, with_mark 0x43 0x327);
    (0xC8, with_mark 0x45 0x300); (0xC9, with_mark 0x45 0x301);
    (0xCA, with_mark 0x45 0x302); (0xCB, with_mark 0x45 0x308);
    (0xCC, with_mark 0x49 0x300); (0xCD, with_mark 0x49 0x301);
    (0xCE, with_mark 0x49 0x302); (0xCF, with_mark 0x49 0x308);
    (0xD1, with_mark 0x4E 0x303);
    (0xD2, with_mark 0x4F 0x300); (0xD3, with_mark 0x4F 0x301);
    (0xD4, with_mark 0x4F 0x302); (0xD5, with_mark 0x4F 0x303);
    (0xD6, with_mark 0x4F 0x308);
    (0xD9, with_mark 0x55 0x300); (0xDA, with_mark 0x55 0x301);
    (0xDB, with_mark 0x55 0x302); (0xDC, with_mark 0x55 0x308);
    (0xDD, with_mark 0x59 0x301);
    (0xE0, with_mark 0x61 0x300); (0xE1, with_mark 0x61 0x301);
    (0xE2, with_mark 0x61 0x302); (0xE3, with_mark 0x61 0x303);
    (0xE4, with_mark 0x61 0x308); (0xE5, with_mark 0x61 0x30A);
    (0xE7, with_mark 0x63 0x327);
    (0xE8, with_mark 0x65 0x300); (0xE9, with_mark 0x65 0x301);
    (0xEA, with_mark 0x65 0x302); (0xEB, with_mark 0x65 0x308);
    (0xEC, with_mark 0x69 0x300); (0xED, with_mark 0x69 0x301);
    (0xEE, with_mark 0x69 0x302); (0xEF, with_mark 0x69 0x308);
    (0xF1, with_mark 0x6E 0x303);
    (0xF2, with_mark 0x6F 0x300); (0xF3, with_mark 0x6F 0x301);
    (0xF4, with_mark 0x6F 0x302); (0xF5, with_mark 0x6F 0x303);
    (0xF6, with_mark 0x6F 0x308);
    (0xF9, with_mark 0x75 0x300); (0xFA, with_mark 0x75 0x301);
    (0xFB, with_mark 0x75 0x302); (0xFC, with_mark 0x75 0x308);
    (0xFD, with_mark 0x79 0x301); (0xFF, with_mark 0x79 0x308);
    (0x2122, [0x54; 0x4D]) ]%N.

Fixpoint assoc_N {V} (k : N) (l : list (N * V)) : option V :=
  match l with
  | [] => None
  | (k', v) :: l => if (k =? k')%N then Some v else assoc_N k l
  end.

Definition in_range (lo hi c : N) : bool := ((lo <=? c) && (c <=? hi))%N.

Definition latin1_isspace (c : N) : bool :=
  in_range 0x09 0x0D c || in_range 0x1C 0x20 c
  || (c =? 0x85)%N || (c =? 0xA0)%N.

Definition latin1_tolower (c : N) : N :=
  if in_range 0x41 0x5A c || (in_range 0xC0 0xDE c && negb (c =? 0xD7)%N)
  then (c + 32)%N else c.

Definition latin1_combining (c : N) : N :=
  if in_range 0x300 0x314 c then 230%N
  else if in_range 0x327 0x328 c then 202%N
  else 0%N.

Definition latin1 : UCD := {|
  isspace := latin1_isspace;
  str_lower := map latin1_tolower;
  decomposition c := default [c] (assoc_N c latin1_decompositions);
  combining := latin1_combining
|}.

(** Sample titles: [ " Día de Enero " ], the spacing diaeresis U+00A8 and
    the trade mark sign U+2122. *)
Definition titulo_dia_de_enero : pystr :=
  [0x20; 0x44; 0xED; 0x61; 0x20; 0x64; 0x65; 0x20; 0x45; 0x6E; 0x65; 0x72;
   0x6F; 0x20]%N.
Definition titulo_dieresis : pystr := [0xA8]%N.
Definition titulo_marca : pystr := [0x2122]%N.

(** ** [leer_csv_seguro] (app.py, lines 22-30) *)

Inductive encoding := utf_8 | latin_1 | cp1252.

Section leer_csv_seguro.
(** [read_csv enc] is what [pd.read_csv(path, encoding=enc)] returns or
    raises on the file at hand. *)
Context {DataFrame : Type} (read_csv : encoding → result DataFrame).

(** The two handlers belong to one [try]: each guards the first read
    only.  The result comes with the list of the reads attempted. *)
Definition leer_csv_seguro : list encoding * result DataFrame :=
  match read_csv utf_8 with
  | Ok df => ([utf_8], Ok df)
  | Raise e =>
      if is_UnicodeDecodeError e then ([utf_8; latin_1], read_csv latin_1)
      else if is_Exception e then ([utf_8; cp1252], read_csv cp1252)
      else ([utf_8], Raise e)
  end.

(** The cascade the specification words: the encodings are tried in
    order, the first read that succeeds is returned, and the error of the
    last one is raised when none does. *)
Fixpoint decode_cascade_spec (encs : list encoding) (last : exn)
  : list encoding * result DataFrame :=
  match encs with
  | [] => ([], Raise last)
  | enc :: encs =>
      match read_csv enc with
      | Ok df => ([enc], Ok df)
      | Raise e => let '(tried, r) := decode_cascade_spec encs e in
                   (enc :: tried, r)
      end
  end.
End leer_csv_seguro.

(** A Latin-1 file with a malformed row: UTF-8 cannot decode it, and the
    parser rejects it under the two other encodings. *)
Definition read_latin1_malformed (enc : encoding) : result unit :=
  match enc with
  | utf_8 => Raise UnicodeDecodeError
  | latin_1 => Raise ParserError
  | cp1252 => Raise ParserError
  end.

(** A well-formed Latin-1 file with an accented letter. *)
Definition read_latin1_file (enc : encoding) : result unit :=
  match enc with
  | utf_8 => Raise UnicodeDecodeError
  | _ => Ok ()
  end.

(** An ASCII file with a malformed row. *)
Definition read_ascii_malformed (enc : encoding) : result unit :=
  Raise ParserError.

(** ** pandas and numpy, as far as [app.py] calls them *)

(** [str(int(z))]: the decimal digits, after a minus sign when negative *)
Definition str_int (z : Z) : string := NilEmpty.string_of_int (Z.to_int z).

(** numpy's [argsort] for [kind="quicksort"], pandas' default: it returns
    its input in ascending order, and which of two equal keys comes first
    is the routine's own business. *)
Class Argsort := argsort : ∀ {A : Type}, (A → A → bool) → list A → list A.

Module pd.
Record DataFrame := { columns : list string; rows : list (list pyval) }.

(** [df[name]]; a row shorter than the header is padded with NaN, as
    [read_csv] does. *)
Definition column_index (name : string) (cols : list string) : option nat :=
  fst <$> list_find (λ c, c = name) cols.

Definition get (df : DataFrame) (name : string) : result (list pyval) :=
  match column_index name (columns df) with
  | Some i => Ok ((λ r, default PNaN (r !! i)) <$> rows df)
  | None => Raise (KeyError name)
  end.

(** [pd.to_numeric(_, errors="coerce")] on one cell.  A cell holding a
    numeral is a [PNum] whatever dtype its column was read with; [PStr]
    is text that is not a numeral. *)
Definition to_numeric (v : pyval) : float :=
  match v with PNum q => Some q | _ => None end.

Definition truncate (q : Q) : Z := Z.quot (Qnum q) (Z.pos (Qden q)).

(** [.astype(int)] on a float cell *)
Definition astype_int (x : float) : result Z :=
  match x with
  | Some q => Ok (truncate q)
  | None => Raise (ValueError "Cannot convert non-finite values (NA or inf) to integer")
  end.

(** [.astype(int)] on a cell as read *)
Definition astype_int_raw (v : pyval) : result Z :=
  match v with
  | PStr _ => Raise (ValueError "invalid literal for int() with base 10")
  | _ => astype_int (to_numeric v)
  end.

(** [.astype("Int64")] on a float cell *)
Definition astype_Int64 (x : float) : result Int64 :=
  match x with
  | None => Ok None
  | Some q =>
      if bool_decide (Z.rem (Qnum q) (Z.pos (Qden q)) = 0)
      then Ok (Some (truncate q))
      else Raise (TypeError "cannot safely cast non-equivalent float64 to int64")
  end.

(** A float64 column as read: an empty cell is NaN. *)
Definition as_float64 (v : pyval) : float := to_numeric v.

Section sorting.
Context `{Argsort}.

(** [nargsort(items, kind="quicksort", ascending, na_position="last")]:
    the missing keys are set aside and put last; for a descending sort
    the others are reversed, sorted ascending and reversed again. *)
Definition nargsort {A K} (leb : K → K → bool) (key : A → option K)
    (ascending : bool) (l : list A) : list A :=
  let non_nans := omap (λ r, k ← key r; Some (k, r)) l in
  let nans := filter (λ r, key r = None) l in
  let non_nans := if ascending then non_nans else reverse non_nans in
  let indexer := argsort (λ a b, leb a.1 b.1) non_nans in
  let indexer := if ascending then indexer else reverse indexer in
  indexer.*2 ++ nans.

(** [df.sort_values(col, ascending=...)] on one column *)
Definition sort_values {A K} (leb : K → K → bool) (key : A → option K)
    (ascending : bool) (l : list A) : list A :=
  nargsort leb key ascending l.
End sorting.

(** Keys of a two-column sort, as [lexsort_indexer] codes them: a missing
    value gets the greatest code, and a descending column has the codes of
    its other values reversed. *)
Definition code_le {K} (leb : K → K → bool) (ascending : bool)
    (a b : option K) : bool :=
  match a, b with
  | _, None => true
  | None, Some _ => false
  | Some x, Some y => if ascending then leb x y else leb y x
  end.

(** The order on two keys: the second decides where the first does not. *)
Definition lexb {A} (P1 P2 : A → A → bool) (a b : A) : bool :=
  if P1 a b && P1 b a then P2 a b else P1 a b.

Definition lex_le {A K1 K2} (leb1 : K1 → K1 → bool) (leb2 : K2 → K2 → bool)
    (key1 : A → option K1) (asc1 : bool) (key2 : A → option K2) (asc2 : bool)
    (a b : A) : bool :=
  lexb (λ a b, code_le leb1 asc1 (key1 a) (key1 b))
       (λ a b, code_le leb2 asc2 (key2 a) (key2 b)) a b.

(** [df.sort_values([col1, col2], ascending=[asc1, asc2])]: the order of
    [np.lexsort] on the two codes. *)
Definition sort_values2 {A K1 K2} (leb1 : K1 → K1 → bool) (leb2 : K2 → K2 → bool)
    (key1 : A → option K1) (asc1 : bool) (key2 : A → option K2) (asc2 : bool)
    (l : list A) : list A :=
  merge_sort (λ a b, lex_le leb1 leb2 key1 asc1 key2 asc2 a b) l.

(** [GroupBy.mean]: per group and column, the sum and the number of the
    values that are not NaN. *)
Definition group_acc : Type := Q * nat.

Definition acc_add (a : group_acc) (v : float) : group_acc :=
  match v with
  | Some q => (a.1 + q, S a.2)%Q
  | None => a
  end.

Definition acc_mean (a : group_acc) : float :=
  match a.2 with
  | O => None
  | S _ => Some (Qred (a.1 / inject_Z (Z.of_nat a.2)))
  end.

(** [df.groupby(key, dropna=True)]: one accumulator per key met, the rows
    whose key is missing being skipped; the keys come out sorted. *)
Definition group_update {A V} (key : A → Int64) (init : V) (step : V → A → V)
    (m : gmap Z V) (r : A) : gmap Z V :=
  match key r with
  | Some y => <[y := step (default init (m !! y)) r]> m
  | None => m
  end.

Definition groupby_agg {A V} (key : A → Int64) (init : V) (step : V → A → V)
    (l : list A) : gmap Z V :=
  foldl (group_update key init step) ∅ l.

Definition group_keys {V} (m : gmap Z V) : list Z :=
  merge_sort Z.le (elements (dom m)).

(** [df.groupby(key, dropna=True)[col].mean().reset_index()] *)
Definition groupby_mean1 {A} (key : A → Int64) (col : A → float) (l : list A)
  : list (Z * float) :=
  let init := (0%Q, O) in
  let m := groupby_agg key init (λ a r, acc_add a (col r)) l in
  (λ y, (y, acc_mean (default init (m !! y)))) <$> group_keys m.

(** [df.groupby(key, dropna=True)[cols].mean().reset_index()] *)
Definition groupby_mean {A} (key : A → Int64) (cols : list (A → float))
    (l : list A) : list (Z * list float) :=
  let init := (λ _, (0%Q, O)) <$> cols in
  let m := groupby_agg key init
             (λ accs r, zip_with (λ a col, acc_add a (col r)) accs cols) l in
  (λ y, (y, acc_mean <$> default init (m !! y))) <$> group_keys m.
End pd.

(** ** The loaded tables *)

Record TopicWord := {
  topic : Z; word : pyval; weight : float; rank : float
}.

Record SongTopics := {
  song : pyval; year : Int64; dominant_topic : Z; nombre_topic : pyval;
  dominant_prob : float;
  Topic_1 : float; Topic_2 : float; Topic_3 : float; Topic_4 : float;
  Topic_5 : float;
  song_norm : pyval
}.

Record Cancion := {
  c_song : pyval; c_year : Int64; lyrics : pyval; c_song_norm : pyval
}.

(** ** [load_data] (app.py, lines 32-76) *)

Definition req_tw : gset string := {[ "topic"; "word"; "weight"; "rank" ]}.
Definition req_tc : gset string :=
  {[ "song"; "year"; "dominant_topic"; "nombre_topic"; "dominant_prob";
     "Topic_1"; "Topic_2"; "Topic_3"; "Topic_4"; "Topic_5" ]}.
Definition req_shak : gset string := {[ "song"; "year"; "lyrics" ]}.

(** [sorted(req)] and the [repr] of a list of [str] *)
Definition py_sorted (req : gset string) : list string :=
  merge_sort (λ a b, String.leb a b) (elements req).

Fixpoint join (sep : string) (l : list string) : string :=
  match l with
  | [] => EmptyString
  | [x] => x
  | x :: l => x +:+ sep +:+ join sep l
  end.

Definition py_repr (l : list string) : string :=
  "[" +:+ join ", " ((λ c, "'" +:+ c +:+ "'") <$> l) +:+ "]".

(** [if not req.issubset(df.columns): raise ValueError(f"{file} debe tener
    columnas {sorted(req)}")] *)
Definition issubset (req : gset string) (cols : list string) : bool :=
  bool_decide (req ⊆ list_to_set cols).

Definition schema_message (file : string) (req : gset string) : string :=
  file +:+ " debe tener columnas " +:+ py_repr (py_sorted req).

Definition check_columns (file : string) (req : gset string) (df : pd.DataFrame)
  : result unit :=
  if issubset req (pd.columns df) then Ok ()
  else Raise (ValueError (schema_message file req)).

Definition at_ {A} (d : A) (l : list A) (i : nat) : A := default d (l !! i).

Definition is_nan (v : pyval) : bool :=
  match v with PNaN => true | _ => false end.

(** Python's [==] on two cell values: NaN equals nothing, itself
    included. *)
Definition py_eqb (a b : pyval) : bool :=
  match a, b with
  | PStr s, PStr s' => bool_decide (s = s')
  | PNum q, PNum q' => Qeq_bool q q'
  | _, _ => false
  end.

Definition pair_eqb (p q : Z * pyval) : bool :=
  bool_decide (p.1 = q.1) && py_eqb p.2 q.2.

(** [df.drop_duplicates()]: of equal rows the first is kept, in place. *)
Definition drop_duplicates (l : list (Z * pyval)) : list (Z * pyval) :=
  foldl (λ kept p, if existsb (pair_eqb p) kept then kept else kept ++ [p]) [] l.

(** [df[["dominant_topic","nombre_topic"]].dropna().drop_duplicates()
      .set_index("dominant_topic")["nombre_topic"].to_dict()]: the pairs
    without a name go, then the repeated pairs; in the dict a later pair
    overwrites an earlier one of the same id. *)
Definition topic_name_pairs (tc : list SongTopics) : list (Z * pyval) :=
  drop_duplicates
    (filter (λ p, is_nan p.2 = false)
       ((λ r, (dominant_topic r, nombre_topic r)) <$> tc)).

Definition build_topic_name_map (tc : list SongTopics) : gmap Z pyval :=
  foldl (λ m p, <[p.1 := p.2]> m) ∅ (topic_name_pairs tc).

Section load_data.
Context `{UCD}.

(** The three frames are the ones [leer_csv_seguro] and [read_excel]
    returned.  The column statements run in the order of the source, so
    that the exception raised is the one of the first that fails. *)
Definition load_data (topic_words topicos_canciones canciones : pd.DataFrame)
  : result (list TopicWord * list SongTopics * list Cancion * gmap Z pyval) :=
  check_columns "shakira_lda_topic_words.csv" req_tw topic_words ;;
  check_columns "shak_topicos_canciones.csv" req_tc topicos_canciones ;;
  check_columns "shak.xlsx" req_shak canciones ;;
  (* tipos *)
  tw_topic ← pd.get topic_words "topic" ≫= mapM pd.astype_int_raw;
  tw_weight ← fmap pd.to_numeric <$> pd.get topic_words "weight";
  tw_rank ← fmap pd.to_numeric <$> pd.get topic_words "rank";
  tw_word ← pd.get topic_words "word";
  tc_year ← pd.get topicos_canciones "year"
              ≫= mapM (λ v, pd.astype_Int64 (pd.to_numeric v));
  tc_dominant ← pd.get topicos_canciones "dominant_topic"
                  ≫= mapM (λ v, pd.astype_int (pd.to_numeric v));
  tc_1 ← fmap pd.to_numeric <$> pd.get topicos_canciones "Topic_1";
  tc_2 ← fmap pd.to_numeric <$> pd.get topicos_canciones "Topic_2";
  tc_3 ← fmap pd.to_numeric <$> pd.get topicos_canciones "Topic_3";
  tc_4 ← fmap pd.to_numeric <$> pd.get topicos_canciones "Topic_4";
  tc_5 ← fmap pd.to_numeric <$> pd.get topicos_canciones "Topic_5";
  tc_song ← pd.get topicos_canciones "song";
  tc_nombre ← pd.get topicos_canciones "nombre_topic";
  tc_prob ← fmap pd.as_float64 <$> pd.get topicos_canciones "dominant_prob";
  c_year ← pd.get canciones "year"
             ≫= mapM (λ v, pd.astype_Int64 (pd.to_numeric v));
  c_song ← pd.get canciones "song";
  c_lyrics ← pd.get canciones "lyrics";
  let tw := (λ i, {| topic := at_ 0 tw_topic i; word := at_ PNaN tw_word i;
                     weight := at_ None tw_weight i; rank := at_ None tw_rank i |})
            <$> seq 0 (length (pd.rows topic_words)) in
  (* normalización para join robusto *)
  let tc := (λ i, {| song := at_ PNaN tc_song i; year := at_ None tc_year i;
                     dominant_topic := at_ 0 tc_dominant i;
                     nombre_topic := at_ PNaN tc_nombre i;
                     dominant_prob := at_ None tc_prob i;
                     Topic_1 := at_ None tc_1 i; Topic_2 := at_ None tc_2 i;
                     Topic_3 := at_ None tc_3 i; Topic_4 := at_ None tc_4 i;
                     Topic_5 := at_ None tc_5 i;
                     song_norm := normalizar (at_ PNaN tc_song i) |})
            <$> seq 0 (length (pd.rows topicos_canciones)) in
  let ca := (λ i, {| c_song := at_ PNaN c_song i; c_year := at_ None c_year i;
                     lyrics := at_ PNaN c_lyrics i;
                     c_song_norm := normalizar (at_ PNaN c_song i) |})
            <$> seq 0 (length (pd.rows canciones)) in
  (* mapa id->nombre de tópico *)
  Ok (tw, tc, ca, build_topic_name_map tc).
End load_data.

(** ** The queries of the "Por Tópico" and "Vista Global" pages *)

Definition topic_names : list string :=
  ["Topic_1"; "Topic_2"; "Topic_3"; "Topic_4"; "Topic_5"].

Definition topic_columns : list (SongTopics → float) :=
  [Topic_1; Topic_2; Topic_3; Topic_4; Topic_5].

(** The column a name of the form [Topic_<n>] selects in the loaded
    assignment table, which holds [Topic_1] .. [Topic_5]; further columns
    of the file are outside the model. *)
Definition topic_column (name : string) : option (SongTopics → float) :=
  i ← pd.column_index name topic_names; topic_columns !! i.

Section queries.
Context `{Argsort}.

(** [palabras] (lines 161-163; lines 106-108 with [n_pal = 12]):
    the rows kept, then the two columns shown. *)
Definition palabras_filas (topic_words : list TopicWord) (top_id : Z)
    (n_pal : nat) : list TopicWord :=
  take n_pal
    (pd.sort_values Qle_bool weight false
       (filter (λ r, topic r = top_id) topic_words)).

Definition palabras (topic_words : list TopicWord) (top_id : Z) (n_pal : nat)
  : list (pyval * float) :=
  (λ r, (word r, weight r)) <$> palabras_filas topic_words top_id n_pal.

(** [canciones_top] (lines 178-180) *)
Definition canciones_top_filas (topicos_canciones : list SongTopics) (top_id : Z)
  : list SongTopics :=
  pd.sort_values2 Z.leb Qle_bool year true dominant_prob false
    (filter (λ r, dominant_topic r = top_id) topicos_canciones).

Definition canciones_top (topicos_canciones : list SongTopics) (top_id : Z)
  : list (pyval * Int64 * float) :=
  (λ r, (song r, year r, dominant_prob r))
  <$> canciones_top_filas topicos_canciones top_id.

(** [df_topic_year] (lines 185-189) *)
Definition df_topic_year (topicos_canciones : list SongTopics) (top_id : Z)
  : result (list (Z * float)) :=
  let col_topic := "Topic_" +:+ str_int top_id in
  match topic_column col_topic with
  | Some col =>
      Ok (pd.sort_values Z.leb (λ r, Some r.1) true
            (pd.groupby_mean1 year col topicos_canciones))
  | None => Raise (KeyError ("Column not found: " +:+ col_topic))
  end.

(** [df_all] (lines 201-205) *)
Definition df_all (topicos_canciones : list SongTopics) : list (Z * list float) :=
  pd.sort_values Z.leb (λ r, Some r.1) true
    (pd.groupby_mean year topic_columns topicos_canciones).

(** [(df_all["year"], df_all[f"Topic_{i}"])], the trace of line 211 *)
Definition df_all_serie (df : list (Z * list float)) (i : Z)
  : result (list (Z * float)) :=
  let name := "Topic_" +:+ str_int i in
  match pd.column_index name topic_names with
  | Some j => Ok ((λ r, (r.1, at_ None r.2 j)) <$> df)
  | None => Raise (KeyError name)
  end.
End queries.

(** A sorting routine that is stable, and one that is not: both return
    their input in ascending order. *)
Definition stable_argsort : Argsort :=
  λ A leb l, merge_sort (λ a b, leb a b) l.

Definition unstable_argsort : Argsort :=
  λ A leb l, merge_sort (λ a b, leb a b) (reverse l).

(** Sample data *)
Definition pal (s : string) : pyval :=
  PStr ((λ a, N_of_ascii a) <$> list_ascii_of_string s).

Definition tw_empate : list TopicWord :=
  [ {| topic := 1; word := pal "amor"; weight := Some (1 # 2)%Q; rank := Some 1%Q |};
    {| topic := 1; word := pal "loca"; weight := Some (1 # 2)%Q; rank := Some 2%Q |};
    {| topic := 2; word := pal "ojos"; weight := Some (1 # 4)%Q; rank := Some 1%Q |} ].

Definition fila (s : string) (y : Int64) (d : Z) (n : string) (p : Q)
    (t1 t2 t3 t4 t5 : Q) : SongTopics :=
  {| song := pal s; year := y; dominant_topic := d; nombre_topic := pal n;
     dominant_prob := Some p;
     Topic_1 := Some t1; Topic_2 := Some t2; Topic_3 := Some t3;
     Topic_4 := Some t4; Topic_5 := Some t5;
     song_norm := @normalizar latin1 (pal s) |}.

Definition tc_ejemplo : list SongTopics :=
  [ fila "Hips Don't Lie" (Some 2005) 1 "Love" (62 # 100)
      (62 # 100) (10 # 100) (10 # 100) (9 # 100) (9 # 100);
    fila "Dia de Enero" (Some 2005) 2 "Nostalgia" (55 # 100)
      (5 # 100) (55 # 100) (15 # 100) (15 # 100) (10 # 100) ].

Definition tc_sin_anio : list SongTopics :=
  [ fila "Loba" None 1 "Love" (70 # 100)
      (70 # 100) (10 # 100) (10 # 100) (5 # 100) (5 # 100);
    fila "Hips Don't Lie" (Some 2005) 1 "Love" (62 # 100)
      (62 # 100) (10 # 100) (10 # 100) (9 # 100) (9 # 100);
    fila "La Tortura" (Some 2005) 1 "Love" (80 # 100)
      (80 # 100) (5 # 100) (5 # 100) (5 # 100) (5 # 100) ].

(** Sample files, as read *)
Definition num (z : Z) : pyval := PNum (inject_Z z).

Definition cols_tw : list string := ["topic"; "word"; "weight"; "rank"].
Definition cols_tc : list string :=
  ["song"; "year"; "dominant_topic"; "nombre_topic"; "dominant_prob";
   "Topic_1"; "Topic_2"; "Topic_3"; "Topic_4"; "Topic_5"].
Definition cols_shak : list string := ["song"; "year"; "lyrics"].

Definition frame_tw : pd.DataFrame :=
  {| pd.columns := cols_tw;
     pd.rows := [[num 1; pal "amor"; PNum (1 # 2); num 1]] |}.

Definition frame_shak : pd.DataFrame :=
  {| pd.columns := cols_shak;
     pd.rows := [[pal "Loba"; num 2009; pal "Quien mata el tiempo"]] |}.

(** [dominant_topic] holds the text "uno". *)
Definition frame_tc_topico_texto : pd.DataFrame :=
  {| pd.columns := cols_tc;
     pd.rows := [[pal "Loba"; num 2009; pal "uno"; pal "Love"; PNum (7 # 10);
                  PNum (7 # 10); PNum (1 # 10); PNum (1 # 10); PNum (1 # 20);
                  PNum (1 # 20)]] |}.

(** [year] holds the text "s/f" and [Topic_3] the text "n/a". *)
Definition frame_tc_anio_texto : pd.DataFrame :=
  {| pd.columns := cols_tc;
     pd.rows := [[pal "Loba"; pal "s/f"; num 1; pal "Love"; PNum (7 # 10);
                  PNum (7 # 10); PNum (1 # 10); pal "n/a"; PNum (1 # 20);
                  PNum (1 # 20)]] |}.

(** [year] holds 2009.5. *)
Definition frame_tc_anio_fraccion : pd.DataFrame :=
  {| pd.columns := cols_tc;
     pd.rows := [[pal "Loba"; PNum (4019 # 2); num 1; pal "Love"; PNum (7 # 10);
                  PNum (7 # 10); PNum (1 # 10); PNum (1 # 10); PNum (1 # 20);
                  PNum (1 # 20)]] |}.

Definition frame_tw_sin_rank : pd.DataFrame :=
  {| pd.columns := ["topic"; "word"; "weight"]; pd.rows := [] |}.

Definition frame_tc_sin_song : pd.DataFrame :=
  {| pd.columns := ["year"; "dominant_topic"; "nombre_topic"; "dominant_prob";
                    "Topic_1"; "Topic_2"; "Topic_3"; "Topic_4"; "Topic_5"];
     pd.rows := [] |}.

(** ** Vocabulary of the specification *)

(** What a sorting routine owes its caller. *)
Definition argsort_sorts `{Argsort} : Prop :=
  ∀ A (leb : A → A → bool),
    (∀ x y, leb x y ∨ leb y x) →
    (∀ x y z, leb x y → leb y z → leb x z) →
    ∀ l, Sorted (λ a b, leb a b) (argsort leb l) ∧ argsort leb l ≡ₚ l.

(** Ascending years, the missing ones last. *)
Definition year_le (y1 y2 : Int64) : Prop :=
  match y1, y2 with
  | _, None => True
  | None, Some _ => False
  | Some a, Some b => a ≤ b
  end.

(** [p1 ≥ p2] on floats, a missing value ranking below every number. *)
Definition float_ge (p1 p2 : float) : Prop :=
  match p1, p2 with
  | _, None => True
  | None, Some _ => False
  | Some x, Some y => (y <= x)%Q
  end.

(** The arithmetic mean of the cells that are not missing; NaN when there
    is none. *)
Definition Qsum (l : list Q) : Q := foldr Qplus 0%Q l.

Definition nanmean (l : list float) : float :=
  match omap id l with
  | [] => None
  | xs => Some (Qred (Qsum xs / inject_Z (Z.of_nat (length xs))))
  end.

(** The keyword query in the words of the specification: a stable sort by
    descending weight, then the first [limit] rows. *)
Fixpoint insert_stable_desc (r : TopicWord) (l : list TopicWord) : list TopicWord :=
  match l with
  | [] => [r]
  | r' :: l' =>
      if pd.code_le Qle_bool false (weight r) (weight r')
      then r :: l
      else r' :: insert_stable_desc r l'
  end.

Definition stable_sort_desc (l : list TopicWord) : list TopicWord :=
  foldr insert_stable_desc [] l.

Definition topicKeywords_spec (tw : list TopicWord) (topic_id : Z) (limit : nat)
  : list (pyval * float) :=
  (λ r, (word r, weight r))
  <$> take limit (stable_sort_desc (filter (λ r, topic r = topic_id) tw)).

(** [c] occurs in the message [msg]. *)
Definition names (c msg : string) : bool :=
  match String.index 0 c msg with Some _ => true | None => false end.

(** ** The "Por Canción" page (app.py, lines 89-149) *)

Section por_cancion.
Context `{UCD}.

(** [fila] (lines 91-97): the rows whose key equals the normalised
    selection, of which the first is used; [None] is the branch that
    reports the song as not found and stops. *)
Definition fila_de (topicos_canciones : list SongTopics) (cancion_sel : pyval)
  : option SongTopics :=
  head (filter (λ r, py_eqb (song_norm r) (normalizar cancion_sel) = true)
          topicos_canciones).

(** [letra_row] (lines 113-118), [None] being the warning *)
Definition letra_de (canciones : list Cancion) (cancion_sel : pyval)
  : option pyval :=
  lyrics <$> head (filter (λ c, py_eqb (c_song_norm c) (normalizar cancion_sel) = true)
                     canciones).
End por_cancion.

(** A [dict] keeps its keys in the order they were first set; setting a
    key again replaces its value where it stands. *)
Fixpoint dict_set {V} (d : list (pyval * V)) (k : pyval) (v : V)
  : list (pyval * V) :=
  match d with
  | [] => [(k, v)]
  | (k', v') :: d' =>
      if py_eqb k' k then (k', v) :: d' else (k', v') :: dict_set d' k v
  end.

Fixpoint dict_get {V} (d : list (pyval * V)) (k : pyval) : option V :=
  match d with
  | [] => None
  | (k', v') :: d' => if py_eqb k' k then Some v' else dict_get d' k
  end.

(** [topic_name_map.get(i, f"Topic {i}")] *)
Definition topic_label (topic_name_map : gmap Z pyval) (i : Z) : pyval :=
  default (pal ("Topic " +:+ str_int i)) (topic_name_map !! i).

(** [row[name]] for a topic column *)
Definition row_get (row : SongTopics) (name : string) : result float :=
  match topic_column name with
  | Some col => Ok (col row)
  | None => Raise (KeyError name)
  end.

(** [topic_values] (line 133): a dict comprehension over [range(1, 6)] *)
Definition topic_values (topic_name_map : gmap Z pyval) (row : SongTopics)
  : result (list (pyval * float)) :=
  foldl (λ acc i, d ← acc;
                  v ← row_get row ("Topic_" +:+ str_int i);
                  Ok (dict_set d (topic_label topic_name_map i) v))
        (Ok []) (seqZ 1 5).

(** ** The topic selector and the table of names *)

(** [Series.unique()]: the values in the order of their first
    appearance *)
Definition unique (l : list Z) : list Z :=
  foldl (λ seen x, if bool_decide (x ∈ seen) then seen else seen ++ [x]) [] l.

(** [sorted(topic_words["topic"].unique())] (line 155) *)
Definition topic_options (topic_words : list TopicWord) : list Z :=
  merge_sort Z.le (unique (topic <$> topic_words)).

Section df_names.
Context `{Argsort}.

(** [df_names] (lines 226-228), from the items of the dict.  A frame built
    from an empty list has no column, so sorting it by ["topic_id"]
    raises. *)
Definition df_names (items : list (Z * pyval)) : result (list (Z * pyval)) :=
  match items with
  | [] => Raise (KeyError "topic_id")
  | _ => Ok (pd.sort_values Z.leb (λ r, Some r.1) true items)
  end.
End df_names.

(** Three rows for topic 1 whose names read Love, Amor, Love. *)
Definition tc_dos_nombres : list SongTopics :=
  [ fila "Loba" (Some 2009) 1 "Love" (70 # 100)
      (70 # 100) (10 # 100) (10 # 100) (5 # 100) (5 # 100);
    fila "Ojos Asi" (Some 1998) 1 "Amor" (60 # 100)
      (60 # 100) (10 # 100) (10 # 100) (10 # 100) (10 # 100);
    fila "La Tortura" (Some 2005) 1 "Love" (80 # 100)
      (80 # 100) (5 # 100) (5 # 100) (5 # 100) (5 # 100) ].

(* ================================================================= *)
(** * Part II: properties *)
(* ================================================================= *)

(** ** The key normaliser *)

Section normalizar_facts.
Context `{UCD}.

(** Each character of a decomposition is its own decomposition: what
    "full decomposition" means in the Unicode standard. *)
Definition decomposition_full : Prop :=
  ∀ c c', c' ∈ decomposition c → decomposition c' = [c'].

Lemma canonical_insert_perm c racc :
  unicodedata.canonical_insert c racc ≡ₚ c :: racc.
Proof.
  induction racc as [|p racc IH]; simpl; [done|].
  case_match; [done|]. rewrite IH. apply Permutation_swap.
Qed.

Lemma canonical_order_perm s : unicodedata.canonical_order s ≡ₚ s.
Proof.
  unfold unicodedata.canonical_order.
  enough (∀ racc, foldl (λ racc c, unicodedata.canonical_insert c racc) racc s
                  ≡ₚ reverse s ++ racc) as Hgen.
  { rewrite reverse_Permutation, Hgen, app_nil_r. apply reverse_Permutation. }
  induction s as [|c s IH]; intros racc; simpl; [done|].
  rewrite IH, canonical_insert_perm, reverse_cons.
  rewrite <- app_assoc. done.
Qed.

Lemma canonical_order_starters s :
  Forall (λ c, combining c = 0%N) s → unicodedata.canonical_order s = s.
Proof.
  intros Hs. unfold unicodedata.canonical_order.
  enough (∀ racc, foldl (λ racc c, unicodedata.canonical_insert c racc) racc s
                  = reverse s ++ racc) as Hgen.
  { rewrite Hgen, app_nil_r. apply reverse_involutive. }
  induction Hs as [|c s Hc _ IH]; intros racc; simpl; [done|].
  rewrite IH, reverse_cons, <- app_assoc. f_equal.
  destruct racc as [|p racc]; simpl; [done|]. by rewrite Hc.
Qed.

Lemma bind_decomposition_fixed s :
  Forall (λ c, decomposition c = [c]) s → s ≫= decomposition = s.
Proof.
  induction 1 as [|c s Hc _ IH]; [done|].
  change ((c :: s) ≫= decomposition) with (decomposition c ++ (s ≫= decomposition)).
  by rewrite Hc, IH.
Qed.

Lemma normalizar_str s :
  normalizar (PStr s)
  = PStr (filter (λ c, combining c = 0%N)
            (unicodedata.normalize_NFKD (str_lower (str_strip s)))).
Proof. reflexivity. Qed.

Lemma normalized_chars s c :
  c ∈ filter (λ c, combining c = 0%N) (unicodedata.normalize_NFKD s) →
  combining c = 0%N ∧ ∃ c0, c ∈ decomposition c0.
Proof.
  rewrite list_elem_of_filter. intros [Hc Hin]. split; [done|].
  unfold unicodedata.normalize_NFKD in Hin.
  rewrite canonical_order_perm in Hin.
  apply list_elem_of_bind in Hin as (c0 & Hin & _). eauto.
Qed.

Lemma filter_Forall_id {A} (P : A → Prop) `{∀ x, Decision (P x)} (l : list A) :
  Forall P l → filter P l = l.
Proof.
  induction 1 as [|x l Hx _ IH]; [done|].
  rewrite filter_cons_True by done. by f_equal.
Qed.

Lemma normalized_is_fixed r0 r :
  decomposition_full →
  r = filter (λ c, combining c = 0%N) (unicodedata.normalize_NFKD r0) →
  filter (λ c, combining c = 0%N) (unicodedata.normalize_NFKD r) = r.
Proof.
  intros Hfull Hr.
  assert (Forall (λ c, combining c = 0%N) r) as Hstart.
  { apply Forall_forall. intros c Hc. rewrite Hr in Hc.
    by apply normalized_chars in Hc as [? _]. }
  assert (Forall (λ c, decomposition c = [c]) r) as Hdec.
  { apply Forall_forall. intros c Hc. rewrite Hr in Hc.
    apply normalized_chars in Hc as [_ [c0 Hc0]]. eauto. }
  unfold unicodedata.normalize_NFKD.
  rewrite (bind_decomposition_fixed r Hdec), (canonical_order_starters r Hstart).
  by apply filter_Forall_id.
Qed.
End normalizar_facts.

(** C8, as the code has it.  [normalizar] is a total function that returns
    what is not a string unchanged.  On a string [s] it returns a string
    [r], and normalising again gives [r] once more whenever [r] is left
    alone by strip-then-lowercase; the decomposition table is assumed to be
    a full decomposition, as the Unicode one is. *)
Theorem normalizar_total_idempotent_on_clean `{UCD} :
  decomposition_full →
  (∀ q, normalizar (PNum q) = PNum q) ∧ normalizar PNaN = PNaN ∧
  ∀ s, ∃ r, normalizar (PStr s) = PStr r ∧
            (str_lower (str_strip r) = r → normalizar (PStr r) = PStr r).
Proof.
  intros Hfull. split; [done|]. split; [done|].
  intros s. eexists. split; [apply normalizar_str|].
  intros Hclean. rewrite normalizar_str, Hclean.
  f_equal. by eapply normalized_is_fixed.
Qed.

Lemma latin1_decomposition_full : @decomposition_full latin1.
Proof.
  assert (∀ c, assoc_N c latin1_decompositions = None ∨
               ∃ l, assoc_N c latin1_decompositions = Some l ∧ l ∈ latin1_decompositions.*2)
    as Hassoc.
  { intros c. generalize latin1_decompositions as t.
    induction t as [|[k v] t IH]; simpl; [by left|].
    destruct (c =? k)%N.
    - right. exists v. split; [done|]. by left.
    - destruct IH as [->|(l & -> & Hl)]; [by left|].
      right. exists l. split; [done|]. by right. }
  assert (Forall (Forall (λ c', assoc_N c' latin1_decompositions = None))
            latin1_decompositions.*2) as Htable.
  { apply (bool_decide_unpack _). vm_compute. reflexivity. }
  intros c c'.
  change (c' ∈ default [c] (assoc_N c latin1_decompositions) →
          default [c'] (assoc_N c' latin1_decompositions) = [c']).
  intros Hin.
  destruct (Hassoc c) as [Hc|(l & Hc & Hl)]; rewrite Hc in Hin; simpl in Hin.
  - apply list_elem_of_singleton in Hin as ->. by rewrite Hc.
  - rewrite Forall_forall in Htable. specialize (Htable l Hl).
    rewrite Forall_forall in Htable. by rewrite (Htable c' Hin).
Qed.

Lemma normalizar_total_idempotent_on_clean_witness :
  @decomposition_full latin1 ∧
  ((∀ q, @normalizar latin1 (PNum q) = PNum q) ∧ @normalizar latin1 PNaN = PNaN ∧
   ∀ s, ∃ r, @normalizar latin1 (PStr s) = PStr r ∧
             (@str_lower latin1 (@str_strip latin1 r) = r →
              @normalizar latin1 (PStr r) = PStr r)).
Proof.
  split; [exact latin1_decomposition_full|].
  exact (@normalizar_total_idempotent_on_clean latin1 latin1_decomposition_full).
Defined.

(** C8 as stated fails: the spacing diaeresis U+00A8 decomposes into a
    space and a combining mark, so it normalises to one space, which
    normalises to the empty string; the trade mark sign U+2122 normalises
    to "TM", which normalises to "tm". *)
Lemma normalizar_not_idempotent :
  @normalizar latin1 (PStr titulo_dieresis) = PStr [0x20]%N ∧
  @normalizar latin1 (@normalizar latin1 (PStr titulo_dieresis)) = PStr [] ∧
  @normalizar latin1 (@normalizar latin1 (PStr titulo_dieresis))
    ≠ @normalizar latin1 (PStr titulo_dieresis) ∧
  @normalizar latin1 (PStr titulo_marca) = PStr [0x54; 0x4D]%N ∧
  @normalizar latin1 (@normalizar latin1 (PStr titulo_marca)) = PStr [0x74; 0x6D]%N.
Proof. vm_compute. repeat split; try reflexivity. discriminate. Qed.

Example normalizar_dia_de_enero :
  @normalizar latin1 (PStr titulo_dia_de_enero)
  = PStr [0x64; 0x69; 0x61; 0x20; 0x64; 0x65; 0x20; 0x65; 0x6E; 0x65; 0x72; 0x6F]%N.
Proof. vm_compute. reflexivity. Qed.

Example df_all_ejemplo :
  @df_all stable_argsort tc_ejemplo
  = [(2005, [Some (67 # 200); Some (13 # 40); Some (1 # 8); Some (3 # 25); Some (19 # 200)]%Q)].
Proof. vm_compute. reflexivity. Qed.


(** ** Orders *)

Section lexicographic.
Context {A : Type} (P1 P2 : A → A → bool).
Hypothesis P1_total : ∀ x y, P1 x y ∨ P1 y x.
Hypothesis P1_trans : ∀ x y z, P1 x y → P1 y z → P1 x z.
Hypothesis P2_total : ∀ x y, P2 x y ∨ P2 y x.
Hypothesis P2_trans : ∀ x y z, P2 x y → P2 y z → P2 x z.

Lemma lex_total x y : pd.lexb P1 P2 x y ∨ pd.lexb P1 P2 y x.
Proof.
  unfold pd.lexb. destruct (P1_total x y), (P2_total x y);
    destruct (P1 x y), (P1 y x); simpl in *; auto.
Qed.

Lemma lex_trans x y z :
  pd.lexb P1 P2 x y → pd.lexb P1 P2 y z → pd.lexb P1 P2 x z.
Proof.
  unfold pd.lexb. intros Hxy Hyz.
  pose proof (P1_trans x y z). pose proof (P1_trans z x y).
  pose proof (P1_trans y z x). pose proof (P1_trans z y x).
  pose proof (P1_trans y x z). pose proof (P2_trans x y z).
  destruct (P1 x y), (P1 y x), (P1 y z), (P1 z y), (P1 x z), (P1 z x);
    simpl in *; auto; try done; exfalso; auto.
Qed.
End lexicographic.

Section code_order.
Context {K : Type} (leb : K → K → bool).
Hypothesis leb_total : ∀ x y, leb x y ∨ leb y x.
Hypothesis leb_trans : ∀ x y z, leb x y → leb y z → leb x z.

Lemma code_le_total asc a b : pd.code_le leb asc a b ∨ pd.code_le leb asc b a.
Proof.
  destruct a as [x|], b as [y|], asc; simpl; auto.
Qed.

Lemma code_le_trans asc a b c :
  pd.code_le leb asc a b → pd.code_le leb asc b c → pd.code_le leb asc a c.
Proof.
  destruct a as [x|], b as [y|], c as [z|], asc; simpl; eauto; done.
Qed.

Lemma code_le_refl asc a : pd.code_le leb asc a a.
Proof. destruct (code_le_total asc a a); done. Qed.
End code_order.

Lemma Zleb_total x y : Z.leb x y ∨ Z.leb y x.
Proof. rewrite !Is_true_true, !Z.leb_le. lia. Qed.

Lemma Zleb_trans x y z : Z.leb x y → Z.leb y z → Z.leb x z.
Proof. rewrite !Is_true_true, !Z.leb_le. lia. Qed.

Lemma Qleb_total x y : Qle_bool x y ∨ Qle_bool y x.
Proof.
  rewrite !Is_true_true, !Qle_bool_iff.
  destruct (Qlt_le_dec x y) as [?%Qlt_le_weak|?]; auto.
Qed.

Lemma Qleb_trans x y z : Qle_bool x y → Qle_bool y z → Qle_bool x z.
Proof. rewrite !Is_true_true, !Qle_bool_iff. apply Qle_trans. Qed.

Lemma year_code_le y1 y2 : pd.code_le Z.leb true y1 y2 ↔ year_le y1 y2.
Proof.
  destruct y1, y2; simpl; rewrite ?Is_true_true, ?Z.leb_le; done.
Qed.

Lemma float_code_ge p1 p2 : pd.code_le Qle_bool false p1 p2 ↔ float_ge p1 p2.
Proof.
  destruct p1, p2; simpl; rewrite ?Is_true_true, ?Qle_bool_iff; done.
Qed.

Lemma StronglySorted_lookup_lt {A} (R : relation A) l i j a b :
  StronglySorted R l → l !! i = Some a → l !! j = Some b → (i < j)%nat → R a b.
Proof.
  intros Hl. revert i j. induction Hl as [|x l _ IH Hx]; intros i j Hi Hj Hlt.
  { by rewrite lookup_nil in Hi. }
  destruct j as [|j]; [lia|]. destruct i as [|i]; simpl in *.
  - inv Hi. rewrite Forall_forall in Hx. apply Hx.
    by eapply list_elem_of_lookup_2.
  - eapply IH; eauto. lia.
Qed.

(** ** Songs dominated by a topic *)

Section canciones_top_facts.
Local Abbreviation le := (pd.lex_le Z.leb Qle_bool year true dominant_prob false).

Local Instance le_total : Total (λ a b, Is_true (le a b)).
Proof.
  intros a b. unfold pd.lex_le.
  apply (lex_total (λ a b, pd.code_le Z.leb true (year a) (year b))
                   (λ a b, pd.code_le Qle_bool false (dominant_prob a) (dominant_prob b))).
  - intros ??. apply code_le_total, Zleb_total.
  - intros ??. apply code_le_total, Qleb_total.
Qed.

Local Instance le_trans : Transitive (λ a b, Is_true (le a b)).
Proof.
  intros a b c. unfold pd.lex_le.
  apply (lex_trans (λ a b, pd.code_le Z.leb true (year a) (year b))
                   (λ a b, pd.code_le Qle_bool false (dominant_prob a) (dominant_prob b))).
  - intros ???. apply code_le_trans, Zleb_trans.
  - intros ???. apply code_le_trans, Qleb_trans.
Qed.

Lemma le_year a b : le a b → year_le (year a) (year b).
Proof.
  unfold pd.lex_le, pd.lexb. rewrite <- year_code_le.
  destruct (pd.code_le Z.leb true (year a) (year b)); simpl; [done|].
  by intros [].
Qed.

Lemma le_prob a b :
  le a b → year a = year b → float_ge (dominant_prob a) (dominant_prob b).
Proof.
  unfold pd.lex_le, pd.lexb. intros Hle Heq. rewrite <- float_code_ge.
  rewrite Heq in Hle.
  pose proof (code_le_refl Z.leb Zleb_total true (year b)) as Hr.
  apply Is_true_true in Hr. by rewrite Hr in Hle.
Qed.

Lemma canciones_top_filas_perm tc t :
  canciones_top_filas tc t ≡ₚ filter (λ r, dominant_topic r = t) tc.
Proof. apply merge_sort_Permutation. Qed.

Lemma canciones_top_filas_sorted tc t :
  StronglySorted (λ a b, Is_true (le a b)) (canciones_top_filas tc t).
Proof. apply (StronglySorted_merge_sort _). Qed.

Lemma canciones_top_lookup tc t i a :
  canciones_top tc t !! i = Some a →
  ∃ r, canciones_top_filas tc t !! i = Some r ∧
       a = (song r, year r, dominant_prob r).
Proof.
  unfold canciones_top. rewrite list_lookup_fmap.
  destruct (canciones_top_filas tc t !! i) as [r|]; simpl; [|done].
  intros [= <-]. eauto.
Qed.

Lemma canciones_top_pair tc t i j a b :
  canciones_top tc t !! i = Some a → canciones_top tc t !! j = Some b →
  (i < j)%nat →
  year_le a.1.2 b.1.2 ∧ (a.1.2 = b.1.2 → float_ge a.2 b.2).
Proof.
  intros (ra & Ha & ->)%canciones_top_lookup (rb & Hb & ->)%canciones_top_lookup Hlt.
  pose proof (StronglySorted_lookup_lt _ _ _ _ _ _
                (canciones_top_filas_sorted tc t) Ha Hb Hlt) as Hle.
  simpl. split; [by apply le_year | by apply le_prob].
Qed.
End canciones_top_facts.


(** C7.  [canciones_top] shows rows of the assignment table whose dominant
    topic is [t], and all of them; two consecutive entries have their years
    in ascending order (a missing year after every other), and when their
    years are equal the first has a probability greater than or equal to
    the second (a missing probability ranking lowest). *)
Theorem canciones_top_dominant_sorted (tc : list SongTopics) (t : Z) :
  canciones_top tc t
    = (λ r, (song r, year r, dominant_prob r)) <$> canciones_top_filas tc t ∧
  canciones_top_filas tc t ≡ₚ filter (λ r, dominant_topic r = t) tc ∧
  (∀ r, r ∈ canciones_top_filas tc t → r ∈ tc ∧ dominant_topic r = t) ∧
  ∀ i a b,
    canciones_top tc t !! i = Some a → canciones_top tc t !! S i = Some b →
    year_le a.1.2 b.1.2 ∧ (a.1.2 = b.1.2 → float_ge a.2 b.2).
Proof.
  split; [done|]. split; [apply canciones_top_filas_perm|]. split.
  - intros r Hr. rewrite canciones_top_filas_perm in Hr.
    apply list_elem_of_filter in Hr as [? ?]. done.
  - intros i a b Ha Hb. eapply canciones_top_pair; eauto.
Qed.

Lemma canciones_top_dominant_sorted_witness :
  canciones_top tc_sin_anio 1 !! 0%nat
    = Some (pal "La Tortura", Some 2005, Some (80 # 100)%Q) ∧
  canciones_top tc_sin_anio 1 !! 1%nat
    = Some (pal "Hips Don't Lie", Some 2005, Some (62 # 100)%Q) ∧
  year_le (Some 2005) (Some 2005) ∧
  (Some 2005 = Some 2005 → float_ge (Some (80 # 100)%Q) (Some (62 # 100)%Q)).
Proof.
  split; [reflexivity|]. split; [reflexivity|].
  destruct (canciones_top_dominant_sorted tc_sin_anio 1) as (_ & _ & _ & Hsorted).
  exact (Hsorted 0%nat _ _ eq_refl eq_refl).
Defined.

(** C10.  In [canciones_top] an entry whose year is missing never comes
    before an entry that has a year. *)
Theorem canciones_top_null_years_last (tc : list SongTopics) (t : Z)
    (i j : nat) (a b : pyval * Int64 * float) :
  canciones_top tc t !! i = Some a → canciones_top tc t !! j = Some b →
  a.1.2 = None → b.1.2 ≠ None → (j < i)%nat.
Proof.
  intros Ha Hb Hnull Hyear.
  destruct (decide (i < j)%nat) as [Hlt|Hge].
  - destruct (canciones_top_pair tc t i j a b Ha Hb Hlt) as [Hle _].
    rewrite Hnull in Hle. destruct (b.1.2); [done|]. by destruct Hyear.
  - assert (i ≠ j) by (intros ->; congruence). lia.
Qed.

Lemma canciones_top_null_years_last_witness :
  canciones_top tc_sin_anio 1 !! 2%nat
    = Some (pal "Loba", None, Some (70 # 100)%Q) ∧
  canciones_top tc_sin_anio 1 !! 0%nat
    = Some (pal "La Tortura", Some 2005, Some (80 # 100)%Q) ∧
  (0 < 2)%nat.
Proof.
  split; [reflexivity|]. split; [reflexivity|].
  apply (canciones_top_null_years_last tc_sin_anio 1 2 0
           (pal "Loba", None, Some (70 # 100)%Q)
           (pal "La Tortura", Some 2005, Some (80 # 100)%Q));
    [reflexivity | reflexivity | reflexivity | discriminate].
Defined.

(** ** Sorting on one column *)

Lemma StronglySorted_fmap_elem {A B} (f : A → B) (R1 : relation A)
    (R2 : relation B) (l : list A) :
  (∀ x y, x ∈ l → y ∈ l → R1 x y → R2 (f x) (f y)) →
  StronglySorted R1 l → StronglySorted R2 (f <$> l).
Proof.
  intros Hf Hl. induction Hl as [|x l _ IH Hx]; csimpl; constructor.
  - apply IH. intros ?????. apply Hf; by try right.
  - rewrite Forall_fmap. rewrite Forall_forall in Hx |- *.
    intros y Hy. apply Hf; [by left | by right | by apply Hx].
Qed.

Lemma stable_argsort_sorts : @argsort_sorts stable_argsort.
Proof.
  intros A leb Htotal Htrans l. split.
  - apply Sorted_merge_sort. exact Htotal.
  - apply merge_sort_Permutation.
Qed.

Lemma unstable_argsort_sorts : @argsort_sorts unstable_argsort.
Proof.
  intros A leb Htotal Htrans l. split.
  - apply Sorted_merge_sort. exact Htotal.
  - unfold argsort, unstable_argsort.
    rewrite merge_sort_Permutation. apply reverse_Permutation.
Qed.

Section nargsort_facts.
Context `{Argsort} (Hsorts : argsort_sorts).
Context {A K : Type} (leb : K → K → bool) (key : A → option K).
Hypothesis leb_total : ∀ x y, leb x y ∨ leb y x.
Hypothesis leb_trans : ∀ x y z, leb x y → leb y z → leb x z.

Lemma non_nans_rows (l : list A) :
  (omap (λ r, k ← key r; Some (k, r)) l).*2 = filter (λ r, ¬ key r = None) l.
Proof.
  induction l as [|r l IH]; [done|]. csimpl.
  destruct (key r) as [k|] eqn:Hk; csimpl.
  - rewrite filter_cons_True by congruence. by rewrite IH.
  - rewrite filter_cons_False by tauto. done.
Qed.

Lemma non_nans_keys (l : list A) (p : K * A) :
  p ∈ omap (λ r, k ← key r; Some (k, r)) l → key p.2 = Some p.1.
Proof.
  rewrite list_elem_of_omap. intros (r & _ & Hp).
  destruct (key r) as [k|] eqn:Hk; simpl in Hp; [|done]. by inv Hp.
Qed.

Lemma indexer_perm (ascending : bool) (pairs : list (K * A)) :
  (if ascending
   then argsort (λ a b : K * A, leb a.1 b.1) pairs
   else reverse (argsort (λ a b : K * A, leb a.1 b.1) (reverse pairs)))
  ≡ₚ pairs.
Proof.
  destruct ascending.
  - apply Hsorts; eauto.
  - rewrite reverse_Permutation.
    etrans; [apply Hsorts; eauto|]. apply reverse_Permutation.
Qed.

Lemma indexer_sorted (ascending : bool) (pairs : list (K * A)) :
  StronglySorted
    (λ a b : K * A, Is_true (if ascending then leb a.1 b.1 else leb b.1 a.1))
    (if ascending
     then argsort (λ a b : K * A, leb a.1 b.1) pairs
     else reverse (argsort (λ a b : K * A, leb a.1 b.1) (reverse pairs))).
Proof.
  destruct ascending.
  - apply Sorted_StronglySorted; [intros ???; apply leb_trans|].
    apply Hsorts; eauto.
  - apply Sorted_StronglySorted; [intros ?????; eapply leb_trans; eauto|].
    apply (Sorted_reverse (λ a b : K * A, Is_true (leb a.1 b.1))).
    apply Hsorts; eauto.
Qed.

Lemma nargsort_unfold (ascending : bool) (l : list A) :
  pd.nargsort leb key ascending l
  = (if ascending
     then argsort (λ a b : K * A, leb a.1 b.1)
            (omap (λ r, k ← key r; Some (k, r)) l)
     else reverse (argsort (λ a b : K * A, leb a.1 b.1)
                     (reverse (omap (λ r, k ← key r; Some (k, r)) l)))).*2
    ++ filter (λ r, key r = None) l.
Proof. by destruct ascending. Qed.

Lemma nargsort_perm (ascending : bool) (l : list A) :
  pd.nargsort leb key ascending l ≡ₚ l.
Proof.
  rewrite nargsort_unfold, indexer_perm, non_nans_rows.
  rewrite (comm (++)). apply filter_app_complement.
Qed.

Lemma all_nans_sorted (ascending : bool) (l : list A) :
  Forall (λ r, key r = None) l →
  StronglySorted (λ a b, Is_true (pd.code_le leb ascending (key a) (key b))) l.
Proof.
  induction 1 as [|r l Hr Hl IH]; constructor; [done|].
  apply Forall_forall. intros b Hb. rewrite Forall_forall in Hl.
  rewrite (Hl b Hb). by destruct (key r).
Qed.

Lemma nargsort_sorted (ascending : bool) (l : list A) :
  StronglySorted (λ a b, Is_true (pd.code_le leb ascending (key a) (key b)))
    (pd.nargsort leb key ascending l).
Proof.
  rewrite nargsort_unfold. apply StronglySorted_app_2.
  - intros a b _ Hb. apply list_elem_of_filter in Hb as [-> _].
    by destruct (key a).
  - eapply (StronglySorted_fmap_elem snd); [|apply indexer_sorted].
    intros p q Hp Hq Hpq. rewrite indexer_perm in Hp, Hq.
    rewrite (non_nans_keys l p Hp), (non_nans_keys l q Hq). done.
  - apply all_nans_sorted, Forall_forall.
    by intros ? [? _]%list_elem_of_filter.
Qed.
End nargsort_facts.

(** ** Keywords of a topic *)

Section palabras_facts.
Context `{Argsort} (Hsorts : argsort_sorts).

Lemma sort_by_weight_perm (l : list TopicWord) :
  pd.sort_values Qle_bool weight false l ≡ₚ l.
Proof. apply (nargsort_perm Hsorts Qle_bool weight Qleb_total Qleb_trans). Qed.

Lemma sort_by_weight_sorted (l : list TopicWord) :
  StronglySorted (λ a b, float_ge (weight a) (weight b))
    (pd.sort_values Qle_bool weight false l).
Proof.
  pose proof (nargsort_sorted Hsorts Qle_bool weight Qleb_total Qleb_trans false l)
    as Hs.
  eapply (StronglySorted_fmap id) in Hs.
  - rewrite list_fmap_id in Hs. exact Hs.
  - intros a b. apply float_code_ge.
Qed.

Lemma palabras_filas_split (tw : list TopicWord) (t : Z) (n : nat) :
  palabras_filas tw t n
  ++ drop n (pd.sort_values Qle_bool weight false (filter (λ r, topic r = t) tw))
  = pd.sort_values Qle_bool weight false (filter (λ r, topic r = t) tw).
Proof. apply take_drop. Qed.
End palabras_facts.

(** C2, as the code has it.  With a sorting routine that sorts,
    [palabras] shows [min n k] rows, [k] being the number of rows of topic
    [t]; they are rows of topic [t], none of the rows of that topic left
    out has a greater weight than one shown, and the weights shown go
    downwards, a missing weight ranking lowest.  Nothing is said of the
    order of two rows of equal weight. *)
Theorem palabras_top_weights `{Argsort} (tw : list TopicWord) (t : Z) (n : nat) :
  argsort_sorts →
  palabras tw t n = (λ r, (word r, weight r)) <$> palabras_filas tw t n ∧
  length (palabras tw t n) = min n (length (filter (λ r, topic r = t) tw)) ∧
  (∀ r, r ∈ palabras_filas tw t n → r ∈ tw ∧ topic r = t) ∧
  (∃ rest, palabras_filas tw t n ++ rest ≡ₚ filter (λ r, topic r = t) tw ∧
           ∀ a b, a ∈ palabras_filas tw t n → b ∈ rest →
                  float_ge (weight a) (weight b)) ∧
  ∀ i a b, palabras tw t n !! i = Some a → palabras tw t n !! S i = Some b →
           float_ge a.2 b.2.
Proof.
  intros Hsorts.
  pose proof (sort_by_weight_sorted Hsorts (filter (λ r, topic r = t) tw)) as Hsorted.
  pose proof (sort_by_weight_perm Hsorts (filter (λ r, topic r = t) tw)) as Hperm.
  rewrite <- (palabras_filas_split tw t n) in Hsorted, Hperm.
  split; [done|]. split; [|split; [|split]].
  - unfold palabras, palabras_filas.
    rewrite length_fmap, length_take.
    by rewrite (sort_by_weight_perm Hsorts).
  - intros r Hr.
    assert (r ∈ filter (λ r, topic r = t) tw) as Hin.
    { rewrite <- Hperm. apply elem_of_app. by left. }
    apply list_elem_of_filter in Hin as [? ?]. done.
  - eexists. split; [exact Hperm|].
    intros a b Ha Hb.
    exact (StronglySorted_app_1_elem_of _ _ _ a b Hsorted Ha Hb).
  - unfold palabras. intros i a b.
    rewrite !list_lookup_fmap.
    destruct (palabras_filas tw t n !! i) as [ra|] eqn:Ha; simpl; [|done].
    destruct (palabras_filas tw t n !! S i) as [rb|] eqn:Hb; simpl; [|done].
    intros [= <-] [= <-]. simpl.
    apply StronglySorted_app_1_l in Hsorted.
    exact (StronglySorted_lookup_lt _ _ i (S i) ra rb Hsorted Ha Hb (Nat.lt_succ_diag_r i)).
Qed.

Lemma palabras_top_weights_witness :
  @argsort_sorts stable_argsort ∧
  @palabras stable_argsort tw_empate 1 1
    = (λ r, (word r, weight r)) <$> @palabras_filas stable_argsort tw_empate 1 1 ∧
  length (@palabras stable_argsort tw_empate 1 1) = 1%nat.
Proof.
  split; [exact stable_argsort_sorts|].
  pose proof (@palabras_top_weights stable_argsort tw_empate 1 1 stable_argsort_sorts)
    as (Hrows & Hlen & _).
  split; [exact Hrows | exact Hlen].
Defined.

Example palabras_stable_routine_keeps_ties :
  @palabras stable_argsort tw_empate 1 2 = topicKeywords_spec tw_empate 1 2.
Proof. reflexivity. Qed.

(** C2 as stated fails on the order of ties: the source sorts with pandas'
    default routine, which promises an ascending result and nothing about
    equal keys.  With a routine that sorts and is not stable, two words of
    equal weight come out against the order of the dataset, which is not
    what a stable descending sort gives. *)
Lemma palabras_ties_not_in_dataset_order :
  @argsort_sorts unstable_argsort ∧
  @palabras unstable_argsort tw_empate 1 2
    = [(pal "loca", Some (1 # 2)%Q); (pal "amor", Some (1 # 2)%Q)] ∧
  topicKeywords_spec tw_empate 1 2
    = [(pal "amor", Some (1 # 2)%Q); (pal "loca", Some (1 # 2)%Q)] ∧
  @palabras unstable_argsort tw_empate 1 2 ≠ topicKeywords_spec tw_empate 1 2.
Proof.
  split; [exact unstable_argsort_sorts|].
  split; [reflexivity|]. split; [reflexivity|]. discriminate.
Qed.

(** ** Grouping by year *)

Section groupby_facts.
Context {A V : Type} (key : A → Int64) (init : V) (step : V → A → V).

Lemma group_fold_lookup (l : list A) (m0 : gmap Z V) (y : Z) :
  foldl (pd.group_update key init step) m0 l !! y
  = match filter (λ r, key r = Some y) l with
    | [] => m0 !! y
    | g => Some (foldl step (default init (m0 !! y)) g)
    end.
Proof.
  revert m0. induction l as [|r l IH]; intros m0; [done|].
  change (foldl ?f m0 (r :: l)) with (foldl f (f m0 r) l).
  rewrite IH. unfold pd.group_update.
  destruct (key r) as [y'|] eqn:Hr.
  - destruct (decide (y' = y)) as [->|Hne].
    + rewrite filter_cons_True by done. rewrite lookup_insert_eq. simpl.
      by destruct (filter _ l).
    + rewrite filter_cons_False by congruence.
      by rewrite lookup_insert_ne.
  - rewrite filter_cons_False by congruence. done.
Qed.

Lemma groupby_agg_lookup (l : list A) (y : Z) :
  pd.groupby_agg key init step l !! y
  = match filter (λ r, key r = Some y) l with
    | [] => None
    | g => Some (foldl step init g)
    end.
Proof.
  unfold pd.groupby_agg. rewrite group_fold_lookup, lookup_empty. done.
Qed.

Lemma groupby_agg_default (l : list A) (y : Z) :
  default init (pd.groupby_agg key init step l !! y)
  = foldl step init (filter (λ r, key r = Some y) l).
Proof. rewrite groupby_agg_lookup. by destruct (filter _ l). Qed.

Lemma groupby_agg_is_Some (l : list A) (y : Z) :
  is_Some (pd.groupby_agg key init step l !! y) ↔ ∃ r, r ∈ l ∧ key r = Some y.
Proof.
  rewrite groupby_agg_lookup. split.
  - destruct (filter _ l) as [|r g] eqn:Hg; [by intros [? ?]|]. intros _.
    assert (r ∈ filter (λ r, key r = Some y) l) as Hr by (rewrite Hg; by left).
    apply list_elem_of_filter in Hr as [? ?]. eauto.
  - intros (r & Hr & Hy).
    assert (r ∈ filter (λ r, key r = Some y) l) as Hin
      by (by apply list_elem_of_filter).
    destruct (filter _ l); [by apply elem_of_nil in Hin | eauto].
Qed.
End groupby_facts.

Lemma Sorted_le_NoDup_lt (l : list Z) :
  StronglySorted Z.le l → NoDup l → StronglySorted Z.lt l.
Proof.
  induction 1 as [|x l _ IH Hx]; intros Hnd; constructor.
  - apply IH. by inv Hnd.
  - inv Hnd. rewrite Forall_forall in Hx |- *. intros y Hy.
    specialize (Hx y Hy). assert (x ≠ y) by (intros ->; done). lia.
Qed.

Lemma group_keys_elem {V} (m : gmap Z V) (y : Z) :
  y ∈ pd.group_keys m ↔ is_Some (m !! y).
Proof.
  unfold pd.group_keys.
  rewrite merge_sort_Permutation, elem_of_elements, elem_of_dom. done.
Qed.

Lemma group_keys_sorted {V} (m : gmap Z V) : StronglySorted Z.lt (pd.group_keys m).
Proof.
  apply Sorted_le_NoDup_lt.
  - apply (StronglySorted_merge_sort _).
  - unfold pd.group_keys. rewrite merge_sort_Permutation. apply NoDup_elements.
Qed.

Lemma group_keys_ext {V W} (m1 : gmap Z V) (m2 : gmap Z W) :
  (∀ y, is_Some (m1 !! y) ↔ is_Some (m2 !! y)) →
  pd.group_keys m1 = pd.group_keys m2.
Proof.
  intros Hdom. unfold pd.group_keys. f_equal. f_equal.
  apply set_eq. intros y. by rewrite !elem_of_dom.
Qed.

(** Sorting by a key what is already in strictly ascending order of that
    key changes nothing, whatever the routine. *)
Section sort_sorted.
Context `{Argsort} (Hsorts : argsort_sorts).
Context {B : Type} (k : B → Z).

Lemma strictly_sorted_inj (l : list B) (a b : B) :
  StronglySorted (λ a b, k a < k b) l → a ∈ l → b ∈ l → k a = k b → a = b.
Proof.
  induction 1 as [|x l _ IH Hx]; intros Ha Hb Hk.
  { by apply elem_of_nil in Ha. }
  rewrite Forall_forall in Hx.
  apply elem_of_cons in Ha as [->|Ha]; apply elem_of_cons in Hb as [->|Hb]; auto.
  - specialize (Hx b Hb). lia.
  - specialize (Hx a Ha). lia.
Qed.

Lemma sort_values_sorted_id (l : list B) :
  StronglySorted (λ a b, k a < k b) l →
  pd.sort_values Z.leb (λ r, Some (k r)) true l = l.
Proof.
  intros Hl. unfold pd.sort_values. rewrite nargsort_unfold. cbv beta iota.
  assert (omap (λ r, k' ← Some (k r); Some (k', r)) l = (λ r, (k r, r)) <$> l) as ->.
  { clear Hl. induction l as [|r l IH]; [done|]. csimpl. by f_equal. }
  assert (filter (λ r, Some (k r) = None) l = []) as ->.
  { clear Hl. induction l as [|r l IH]; [done|].
    by rewrite filter_cons_False. }
  rewrite app_nil_r.
  set (pairs := (λ r, (k r, r)) <$> l).
  assert (argsort (λ a b : Z * B, Z.leb a.1 b.1) pairs = pairs) as ->.
  { destruct (Hsorts _ (λ a b : Z * B, Z.leb a.1 b.1)
                (λ a b, Zleb_total a.1 b.1)
                (λ a b c, Zleb_trans a.1 b.1 c.1) pairs) as [Hsorted Hperm].
    assert (Transitive (λ a b : Z * B, Is_true (Z.leb a.1 b.1))).
    { intros a b c. apply Zleb_trans. }
    eapply (Sorted_unique_strong (λ a b : Z * B, Is_true (Z.leb a.1 b.1)));
      [| exact Hsorted | | exact Hperm].
    - intros p q Hp Hq Hpq Hqp. rewrite Hperm in Hp.
      apply list_elem_of_fmap in Hp as (a & -> & Ha).
      apply list_elem_of_fmap in Hq as (b & -> & Hb).
      simpl in Hpq, Hqp.
      apply Is_true_true, Z.leb_le in Hpq. apply Is_true_true, Z.leb_le in Hqp.
      assert (a = b) as ->; [|done].
      apply (strictly_sorted_inj l a b Hl Ha Hb). simpl in Hpq, Hqp.
      by apply Z.le_antisymm.
    - apply StronglySorted_Sorted.
      eapply (StronglySorted_fmap_elem _ _ _ l); [|exact Hl].
      intros a b _ _ Hab. simpl in *. apply Is_true_true, Z.leb_le. lia. }
  unfold pairs. rewrite <- list_fmap_compose. apply list_fmap_id.
Qed.
End sort_sorted.

(** ** Means per year *)

Lemma acc_fold (col_values : list float) (s : Q) (n : nat) :
  ((foldl pd.acc_add (s, n) col_values).1 == s + Qsum (omap id col_values))%Q ∧
  (foldl pd.acc_add (s, n) col_values).2 = (n + length (omap id col_values))%nat.
Proof.
  revert s n. induction col_values as [|v vs IH]; intros s n.
  - simpl. split; [apply Qeq_sym, Qplus_0_r | lia].
  - destruct v as [q|].
    + destruct (IH (s + q)%Q (S n)) as [Hs Hn]. split.
      * change ((foldl pd.acc_add (s + q, S n) vs).1
                == s + (q + Qsum (omap id vs)))%Q.
        rewrite Hs. ring.
      * change ((foldl pd.acc_add (s + q, S n)%Q vs).2
                = (n + S (length (omap id vs)))%nat).
        rewrite Hn. lia.
    + apply IH.
Qed.

Lemma acc_mean_nanmean (col_values : list float) :
  pd.acc_mean (foldl pd.acc_add (0%Q, O) col_values) = nanmean col_values.
Proof.
  destruct (acc_fold col_values 0 0) as [Hs Hn].
  destruct (foldl pd.acc_add (0%Q, O) col_values) as [s n].
  unfold pd.acc_mean, nanmean. simpl in *. subst n.
  destruct (omap id col_values) as [|x xs]; [done|].
  simpl length. cbv iota. f_equal. apply Qred_complete.
  by rewrite Hs, Qplus_0_l.
Qed.

Lemma groupby_mean1_unfold {A} (key : A → Int64) (col : A → float) (l : list A) :
  pd.groupby_mean1 key col l
  = (λ y, (y, nanmean (col <$> filter (λ r, key r = Some y) l)))
    <$> pd.group_keys (pd.groupby_agg key (0%Q, O) (λ a r, pd.acc_add a (col r)) l).
Proof.
  unfold pd.groupby_mean1. apply list_fmap_ext. intros _ y _. f_equal.
  rewrite groupby_agg_default, <- acc_mean_nanmean. by rewrite foldl_fmap.
Qed.

Lemma groupby_mean1_years {A} (key : A → Int64) (col : A → float) (l : list A) :
  (pd.groupby_mean1 key col l).*1
  = pd.group_keys (pd.groupby_agg key (0%Q, O) (λ a r, pd.acc_add a (col r)) l).
Proof.
  unfold pd.groupby_mean1. rewrite <- list_fmap_compose. apply list_fmap_id.
Qed.

Lemma fmap_fst_sorted {B} (l : list (Z * B)) :
  StronglySorted Z.lt l.*1 → StronglySorted (λ a b, a.1 < b.1) l.
Proof.
  induction l as [|x l IH]; csimpl; [constructor|].
  intros [Hx Hl]%StronglySorted_cons. constructor; [by apply IH|].
  by rewrite Forall_fmap in Hx.
Qed.

Lemma topic_column_in_range (t : Z) :
  1 ≤ t ≤ 5 →
  pd.column_index ("Topic_" +:+ str_int t) topic_names = Some (Z.to_nat (t - 1)) ∧
  is_Some (topic_columns !! Z.to_nat (t - 1)).
Proof.
  intros Ht.
  assert (t = 1 ∨ t = 2 ∨ t = 3 ∨ t = 4 ∨ t = 5) as Hcases by lia.
  destruct Hcases as [->|[->|[->|[->| ->]]]]; split; try reflexivity; by eexists.
Qed.

Section df_topic_year_facts.
Context `{Argsort} (Hsorts : argsort_sorts).

Lemma df_topic_year_in_range (tc : list SongTopics) (t : Z) (col : SongTopics → float) :
  1 ≤ t ≤ 5 → topic_columns !! Z.to_nat (t - 1) = Some col →
  df_topic_year tc t = Ok (pd.groupby_mean1 year col tc).
Proof.
  intros [Hidx _]%topic_column_in_range Hcol.
  unfold df_topic_year, topic_column. rewrite Hidx. simpl. rewrite Hcol.
  f_equal. apply (sort_values_sorted_id Hsorts).
  apply fmap_fst_sorted. rewrite groupby_mean1_years. apply group_keys_sorted.
Qed.
End df_topic_year_facts.

(** C1.  For a topic [t] of 1..5 and a sorting routine that sorts,
    [df_topic_year] returns a table whose years are in strictly ascending
    order; a year is in it exactly when some row has that year (so no row
    without a year contributes one), and the value next to a year is the
    arithmetic mean of the cells of column [Topic_t] over the rows of that
    year, the missing cells being left out of both the sum and the
    count. *)
Theorem df_topic_year_means `{Argsort} (tc : list SongTopics) (t : Z) :
  argsort_sorts → 1 ≤ t ≤ 5 →
  ∃ col out,
    topic_columns !! Z.to_nat (t - 1) = Some col ∧
    df_topic_year tc t = Ok out ∧
    StronglySorted Z.lt out.*1 ∧
    (∀ y, y ∈ out.*1 ↔ ∃ r, r ∈ tc ∧ year r = Some y) ∧
    (∀ y m, (y, m) ∈ out →
            m = nanmean (col <$> filter (λ r, year r = Some y) tc)).
Proof.
  intros Hsorts Ht.
  destruct (topic_column_in_range t Ht) as [_ [col Hcol]].
  exists col, (pd.groupby_mean1 year col tc).
  split; [done|]. split; [by apply df_topic_year_in_range|].
  rewrite groupby_mean1_years. split; [apply group_keys_sorted|]. split.
  - intros y. by rewrite group_keys_elem, groupby_agg_is_Some.
  - intros y m. rewrite groupby_mean1_unfold.
    intros (y' & [= -> ->] & _)%list_elem_of_fmap. done.
Qed.

Lemma df_topic_year_means_witness :
  @argsort_sorts stable_argsort ∧ 1 ≤ 2 ≤ 5 ∧
  ∃ col out,
    topic_columns !! Z.to_nat (2 - 1) = Some col ∧
    @df_topic_year stable_argsort tc_ejemplo 2 = Ok out ∧
    StronglySorted Z.lt out.*1 ∧
    (∀ y, y ∈ out.*1 ↔ ∃ r, r ∈ tc_ejemplo ∧ year r = Some y) ∧
    (∀ y m, (y, m) ∈ out →
            m = nanmean (col <$> filter (λ r, year r = Some y) tc_ejemplo)).
Proof.
  split; [exact stable_argsort_sorts|]. split; [lia|].
  apply (@df_topic_year_means stable_argsort tc_ejemplo 2 stable_argsort_sorts).
  lia.
Defined.

(** ** One topic against all topics *)

Lemma fold_cols_lookup {A} (cols : list (A → float)) (j : nat) (col : A → float)
    (g : list A) (accs : list pd.group_acc) (a : pd.group_acc) :
  cols !! j = Some col → accs !! j = Some a →
  foldl (λ accs r, zip_with (λ a col, pd.acc_add a (col r)) accs cols) accs g !! j
  = Some (foldl (λ a r, pd.acc_add a (col r)) a g).
Proof.
  intros Hcol. revert accs a. induction g as [|r g IH]; intros accs a Ha; [done|].
  simpl. apply IH. rewrite lookup_zip_with, Ha. simpl. by rewrite Hcol.
Qed.

Lemma groupby_mean_years {A} (key : A → Int64) (cols : list (A → float)) (l : list A) :
  (pd.groupby_mean key cols l).*1
  = pd.group_keys
      (pd.groupby_agg key ((λ _, (0%Q, O)) <$> cols)
         (λ accs r, zip_with (λ a col, pd.acc_add a (col r)) accs cols) l).
Proof.
  unfold pd.groupby_mean. rewrite <- list_fmap_compose. apply list_fmap_id.
Qed.

Lemma groupby_mean_column {A} (key : A → Int64) (cols : list (A → float))
    (j : nat) (col : A → float) (l : list A) :
  cols !! j = Some col →
  (λ r, (r.1, at_ None r.2 j)) <$> pd.groupby_mean key cols l
  = pd.groupby_mean1 key col l.
Proof.
  intros Hcol. unfold pd.groupby_mean, pd.groupby_mean1.
  rewrite <- list_fmap_compose.
  rewrite (group_keys_ext _ (pd.groupby_agg key (0%Q, O)
                               (λ a r, pd.acc_add a (col r)) l)).
  2: { intros y. by rewrite !groupby_agg_is_Some. }
  apply list_fmap_ext. intros _ y _. simpl. f_equal.
  rewrite !groupby_agg_default. unfold at_.
  rewrite list_lookup_fmap.
  rewrite (fold_cols_lookup cols j col _ _ (0%Q, O) Hcol).
  - done.
  - by rewrite list_lookup_fmap, Hcol.
Qed.

Section df_all_facts.
Context `{Argsort} (Hsorts : argsort_sorts).

Lemma df_all_groups (tc : list SongTopics) :
  df_all tc = pd.groupby_mean year topic_columns tc.
Proof.
  unfold df_all. apply (sort_values_sorted_id Hsorts).
  apply fmap_fst_sorted. rewrite groupby_mean_years. apply group_keys_sorted.
Qed.
End df_all_facts.

(** C9.  For a topic [t] of 1..5 and a sorting routine that sorts, the
    table [df_topic_year] returns for [t] is the pair of columns [year] and
    [Topic_t] of [df_all]: the same years in the same order, with the same
    means. *)
Theorem df_topic_year_agrees_with_df_all `{Argsort} (tc : list SongTopics) (t : Z) :
  argsort_sorts → 1 ≤ t ≤ 5 →
  df_all_serie (df_all tc) t = df_topic_year tc t ∧
  ∃ out, df_topic_year tc t = Ok out.
Proof.
  intros Hsorts Ht.
  destruct (topic_column_in_range t Ht) as [Hidx [col Hcol]].
  rewrite (df_topic_year_in_range Hsorts tc t col Ht Hcol).
  split; [|by eexists].
  unfold df_all_serie. rewrite Hidx, (df_all_groups Hsorts).
  f_equal. by apply groupby_mean_column.
Qed.

Lemma df_topic_year_agrees_with_df_all_witness :
  @argsort_sorts stable_argsort ∧ 1 ≤ 3 ≤ 5 ∧
  @df_all_serie (@df_all stable_argsort tc_sin_anio) 3
    = @df_topic_year stable_argsort tc_sin_anio 3 ∧
  ∃ out, @df_topic_year stable_argsort tc_sin_anio 3 = Ok out.
Proof.
  split; [exact stable_argsort_sorts|]. split; [lia|].
  apply (@df_topic_year_agrees_with_df_all stable_argsort tc_sin_anio 3
           stable_argsort_sorts).
  lia.
Defined.

(** ** Topics that are not there *)

Lemma str_int_inj (a b : Z) : str_int a = str_int b → a = b.
Proof.
  unfold str_int. intros Heq. apply DecimalZ.to_int_inj.
  pose proof (NilEmpty.isi (Z.to_int a)) as Ha.
  rewrite Heq, NilEmpty.isi in Ha. by inv Ha.
Qed.

Lemma topic_column_out_of_range (t : Z) :
  ¬ (1 ≤ t ≤ 5) → topic_column ("Topic_" +:+ str_int t) = None.
Proof.
  intros Ht. unfold topic_column, pd.column_index.
  assert (list_find (λ c, c = "Topic_" +:+ str_int t) topic_names = None) as ->;
    [|done].
  apply list_find_None. unfold topic_names.
  repeat apply Forall_cons_2; [..|apply Forall_nil_2];
    intros [= Heq];
    [ apply (str_int_inj 1) in Heq | apply (str_int_inj 2) in Heq
    | apply (str_int_inj 3) in Heq | apply (str_int_inj 4) in Heq
    | apply (str_int_inj 5) in Heq ]; lia.
Qed.

Lemma filter_none {A} (P : A → Prop) `{∀ x, Decision (P x)} (l : list A) :
  (∀ x, x ∈ l → ¬ P x) → filter P l = [].
Proof.
  induction l as [|x l IH]; intros Hl; [done|].
  rewrite filter_cons_False by (apply Hl; by left).
  apply IH. intros ??. apply Hl. by right.
Qed.

(** C5, as the code has it.  For a topic outside 1..5 the yearly-mean query
    raises a [KeyError]: the column [Topic_t] it selects does not exist.
    The keyword query returns no row for a topic that no row of the
    topic-word table has, and so does the dominant-songs query for a topic
    that dominates no song. *)
Theorem queries_on_unknown_topic `{Argsort} :
  argsort_sorts →
  (∀ tc t, ¬ (1 ≤ t ≤ 5) →
     df_topic_year tc t = Raise (KeyError ("Column not found: Topic_" +:+ str_int t))) ∧
  (∀ tw t n, (∀ r, r ∈ tw → topic r ≠ t) → palabras tw t n = []) ∧
  (∀ tc t, (∀ r, r ∈ tc → dominant_topic r ≠ t) → canciones_top tc t = []).
Proof.
  intros Hsorts. split; [|split].
  - intros tc t Ht. unfold df_topic_year.
    by rewrite (topic_column_out_of_range t Ht).
  - intros tw t n Hnone. unfold palabras, palabras_filas.
    rewrite (filter_none _ tw) by done.
    pose proof (sort_by_weight_perm Hsorts []) as Hnil.
    apply Permutation_nil_r in Hnil. by rewrite Hnil, take_nil.
  - intros tc t Hnone. unfold canciones_top, canciones_top_filas.
    by rewrite (filter_none _ tc).
Qed.

Lemma queries_on_unknown_topic_witness :
  @argsort_sorts stable_argsort ∧
  @df_topic_year stable_argsort tc_ejemplo 0
    = Raise (KeyError ("Column not found: Topic_" +:+ str_int 0)) ∧
  @palabras stable_argsort tw_empate 7 15 = [] ∧
  canciones_top tc_ejemplo 7 = [].
Proof.
  split; [exact stable_argsort_sorts|].
  destruct (@queries_on_unknown_topic stable_argsort stable_argsort_sorts)
    as (Hyear & Hwords & Hsongs).
  split; [apply Hyear; lia|]. split.
  - apply Hwords, Forall_forall. repeat constructor; by simpl.
  - apply Hsongs, Forall_forall. repeat constructor; by simpl.
Defined.

(** C5 as stated fails for the yearly-mean query: for topic 6 it raises
    instead of returning an empty table, on any assignment table. *)
Lemma df_topic_year_raises_on_topic_6 :
  @df_topic_year stable_argsort tc_ejemplo 6
    = Raise (KeyError "Column not found: Topic_6") ∧
  @df_topic_year stable_argsort tc_ejemplo 6 ≠ Ok [] ∧
  @df_topic_year stable_argsort [] 0 = Raise (KeyError "Column not found: Topic_0").
Proof. split; [reflexivity|]. split; [discriminate | reflexivity]. Qed.

(** ** Reading and loading *)

(** C3, as the code has it.  [leer_csv_seguro] reads as UTF-8 first and
    returns that table when the read succeeds.  After a decode error it
    reads as Latin-1, and after any other exception as Windows-1252; in
    both cases it returns or raises what that second read does.  It never
    reads more than twice; the table it returns is that of the last read
    it made, the reads before having failed; and it raises only when every
    read it made failed. *)
Theorem leer_csv_seguro_fallbacks {A : Type} (read_csv : encoding → result A) :
  (length (leer_csv_seguro read_csv).1 ≤ 2)%nat ∧
  head (leer_csv_seguro read_csv).1 = Some utf_8 ∧
  (∀ df, read_csv utf_8 = Ok df → leer_csv_seguro read_csv = ([utf_8], Ok df)) ∧
  (read_csv utf_8 = Raise UnicodeDecodeError →
   leer_csv_seguro read_csv = ([utf_8; latin_1], read_csv latin_1)) ∧
  (∀ e, read_csv utf_8 = Raise e →
        is_UnicodeDecodeError e = false → is_Exception e = true →
        leer_csv_seguro read_csv = ([utf_8; cp1252], read_csv cp1252)) ∧
  (∀ e, read_csv utf_8 = Raise e → is_Exception e = false →
        leer_csv_seguro read_csv = ([utf_8], Raise e)) ∧
  (∀ df, (leer_csv_seguro read_csv).2 = Ok df →
         ∃ tried enc, (leer_csv_seguro read_csv).1 = tried ++ [enc] ∧
                      read_csv enc = Ok df ∧
                      ∀ enc', enc' ∈ tried → ∃ e, read_csv enc' = Raise e) ∧
  (∀ e, (leer_csv_seguro read_csv).2 = Raise e →
        ∀ enc, enc ∈ (leer_csv_seguro read_csv).1 → ∃ e', read_csv enc = Raise e').
Proof.
  split_and!.
  - unfold leer_csv_seguro. destruct (read_csv utf_8) as [df0|e0]; simpl; [lia|].
    destruct (is_UnicodeDecodeError e0); simpl; [lia|].
    destruct (is_Exception e0); simpl; lia.
  - unfold leer_csv_seguro. destruct (read_csv utf_8) as [df0|e0]; [done|].
    destruct (is_UnicodeDecodeError e0); [done|]. by destruct (is_Exception e0).
  - intros df Hutf. unfold leer_csv_seguro. by rewrite Hutf.
  - intros Hutf. unfold leer_csv_seguro. by rewrite Hutf.
  - intros e Hutf Hdec Hexc. unfold leer_csv_seguro. by rewrite Hutf, Hdec, Hexc.
  - intros e Hutf Hexc. unfold leer_csv_seguro. rewrite Hutf.
    destruct e; try done.
  - intros df. unfold leer_csv_seguro.
    destruct (read_csv utf_8) as [df0|e0] eqn:Hutf.
    { intros [= <-]. exists [], utf_8. split; [done|]. split; [done|].
      intros enc' Henc'. by apply elem_of_nil in Henc'. }
    destruct (is_UnicodeDecodeError e0); [|destruct (is_Exception e0)]; simpl.
    + intros Hlat. exists [utf_8], latin_1. split; [done|]. split; [done|].
      intros enc' ->%list_elem_of_singleton. eauto.
    + intros Hcp. exists [utf_8], cp1252. split; [done|]. split; [done|].
      intros enc' ->%list_elem_of_singleton. eauto.
    + done.
  - intros e. unfold leer_csv_seguro.
    destruct (read_csv utf_8) as [df0|e0] eqn:Hutf; [done|].
    destruct (is_UnicodeDecodeError e0); [|destruct (is_Exception e0)]; simpl.
    + intros Hlat enc Henc.
      apply elem_of_cons in Henc as [->|Henc]; [eauto|].
      apply list_elem_of_singleton in Henc as ->. eauto.
    + intros Hcp enc Henc.
      apply elem_of_cons in Henc as [->|Henc]; [eauto|].
      apply list_elem_of_singleton in Henc as ->. eauto.
    + intros _ enc ->%list_elem_of_singleton. eauto.
Qed.

Lemma leer_csv_seguro_fallbacks_witness :
  read_latin1_file utf_8 = Raise UnicodeDecodeError ∧
  leer_csv_seguro read_latin1_file = ([utf_8; latin_1], Ok ()).
Proof.
  split; [reflexivity|].
  destruct (leer_csv_seguro_fallbacks read_latin1_file)
    as (_ & _ & _ & Hdecode & _).
  exact (Hdecode eq_refl).
Defined.

(** C3 as stated fails on the reads attempted.  On a Latin-1 file with a
    malformed row the UTF-8 read fails to decode and the Latin-1 read fails
    to parse: that error is raised with Windows-1252 never tried.  On an
    ASCII file with a malformed row the UTF-8 read fails to parse and
    Latin-1 is skipped.  The cascade of the specification reads three times
    in both cases, and raises the same error. *)
Lemma leer_csv_seguro_skips_an_encoding :
  leer_csv_seguro read_latin1_malformed = ([utf_8; latin_1], Raise ParserError) ∧
  (cp1252 ∉ (leer_csv_seguro read_latin1_malformed).1) ∧
  decode_cascade_spec read_latin1_malformed [utf_8; latin_1; cp1252] UnicodeDecodeError
    = ([utf_8; latin_1; cp1252], Raise ParserError) ∧
  leer_csv_seguro read_ascii_malformed = ([utf_8; cp1252], Raise ParserError) ∧
  (latin_1 ∉ (leer_csv_seguro read_ascii_malformed).1) ∧
  decode_cascade_spec read_ascii_malformed [utf_8; latin_1; cp1252] UnicodeDecodeError
    = ([utf_8; latin_1; cp1252], Raise ParserError).
Proof.
  repeat split; try reflexivity.
  - intros Hin. simpl in Hin.
    repeat (apply elem_of_cons in Hin as [Hin|Hin]; [discriminate|]).
    by apply elem_of_nil in Hin.
  - intros Hin. simpl in Hin.
    repeat (apply elem_of_cons in Hin as [Hin|Hin]; [discriminate|]).
    by apply elem_of_nil in Hin.
Qed.

(** C4 does not hold of the code for [dominant_topic]: a text cell there
    is coerced to NaN, and the cast to [int] that follows raises, so that
    nothing is loaded.  In [year] and in [Topic_3] the same kind of cell
    becomes a missing value and the table loads; a year that is a number
    but not a whole one makes the cast to [Int64] raise. *)
Theorem load_data_aborts_on_text_in_dominant_topic :
  @load_data latin1 frame_tw frame_tc_topico_texto frame_shak
    = Raise (ValueError "Cannot convert non-finite values (NA or inf) to integer") ∧
  (λ loaded : list TopicWord * list SongTopics * list Cancion * gmap Z pyval,
     (year <$> loaded.1.1.2, Topic_3 <$> loaded.1.1.2,
      dominant_topic <$> loaded.1.1.2))
    <$> @load_data latin1 frame_tw frame_tc_anio_texto frame_shak
    = Ok ([None], [None], [1]) ∧
  @load_data latin1 frame_tw frame_tc_anio_fraccion frame_shak
    = Raise (TypeError "cannot safely cast non-equivalent float64 to int64").
Proof. vm_compute. by repeat split. Qed.

Section load_data_facts.
Context `{UCD}.

Lemma load_data_first_check (tw tc ca : pd.DataFrame) :
  issubset req_tw (pd.columns tw) = false →
  load_data tw tc ca
  = Raise (ValueError (schema_message "shakira_lda_topic_words.csv" req_tw)).
Proof. intros Htw. unfold load_data, check_columns. by rewrite Htw. Qed.

Lemma load_data_second_check (tw tc ca : pd.DataFrame) :
  issubset req_tw (pd.columns tw) = true →
  issubset req_tc (pd.columns tc) = false →
  load_data tw tc ca
  = Raise (ValueError (schema_message "shak_topicos_canciones.csv" req_tc)).
Proof. intros Htw Htc. unfold load_data, check_columns. by rewrite Htw, Htc. Qed.

Lemma load_data_third_check (tw tc ca : pd.DataFrame) :
  issubset req_tw (pd.columns tw) = true →
  issubset req_tc (pd.columns tc) = true →
  issubset req_shak (pd.columns ca) = false →
  load_data tw tc ca = Raise (ValueError (schema_message "shak.xlsx" req_shak)).
Proof.
  intros Htw Htc Hca. unfold load_data, check_columns. by rewrite Htw, Htc, Hca.
Qed.
End load_data_facts.

Lemma issubset_false_of_missing (req : gset string) (cols : list string) (c : string) :
  c ∈ req → c ∉ cols → issubset req cols = false.
Proof.
  intros Hreq Hcols. unfold issubset. apply bool_decide_eq_false.
  intros Hsub. apply Hcols. specialize (Hsub c Hreq).
  by apply elem_of_list_to_set in Hsub.
Qed.

Lemma schema_message_tw (c : string) :
  c ∈ req_tw → names c (schema_message "shakira_lda_topic_words.csv" req_tw) = true.
Proof.
  unfold req_tw. rewrite !elem_of_union, !elem_of_singleton.
  intros Hc. repeat destruct Hc as [Hc| ->]; try subst c; by vm_compute.
Qed.

Lemma schema_message_tc (c : string) :
  c ∈ req_tc → names c (schema_message "shak_topicos_canciones.csv" req_tc) = true.
Proof.
  unfold req_tc. rewrite !elem_of_union, !elem_of_singleton.
  intros Hc. repeat destruct Hc as [Hc| ->]; try subst c; by vm_compute.
Qed.

Lemma schema_message_shak (c : string) :
  c ∈ req_shak → names c (schema_message "shak.xlsx" req_shak) = true.
Proof.
  unfold req_shak. rewrite !elem_of_union, !elem_of_singleton.
  intros Hc. repeat destruct Hc as [Hc| ->]; try subst c; by vm_compute.
Qed.

(** C6, as the code has it.  When a table lacks a required column,
    [load_data] raises a [ValueError] before any column is converted.  The
    tables are checked in the order topic words, assignments, lyrics, and
    the message is the one of the first table found wanting: it lists all
    the required columns of that table, the missing ones among them.  A
    topic-word table without [rank] gives a message naming [rank]. *)
Theorem load_data_missing_columns `{UCD} (tw tc ca : pd.DataFrame) :
  (issubset req_tw (pd.columns tw) = false →
   load_data tw tc ca
   = Raise (ValueError (schema_message "shakira_lda_topic_words.csv" req_tw))) ∧
  (issubset req_tw (pd.columns tw) = true →
   issubset req_tc (pd.columns tc) = false →
   load_data tw tc ca
   = Raise (ValueError (schema_message "shak_topicos_canciones.csv" req_tc))) ∧
  (issubset req_tw (pd.columns tw) = true →
   issubset req_tc (pd.columns tc) = true →
   issubset req_shak (pd.columns ca) = false →
   load_data tw tc ca = Raise (ValueError (schema_message "shak.xlsx" req_shak))) ∧
  (∀ c, c ∈ req_tw →
        names c (schema_message "shakira_lda_topic_words.csv" req_tw) = true) ∧
  (∀ c, c ∈ req_tc →
        names c (schema_message "shak_topicos_canciones.csv" req_tc) = true) ∧
  (∀ c, c ∈ req_shak → names c (schema_message "shak.xlsx" req_shak) = true) ∧
  ("rank" ∉ pd.columns tw →
   ∃ msg, load_data tw tc ca = Raise (ValueError msg) ∧ names "rank" msg = true).
Proof.
  split; [apply load_data_first_check|].
  split; [apply load_data_second_check|].
  split; [apply load_data_third_check|].
  split; [apply schema_message_tw|].
  split; [apply schema_message_tc|].
  split; [apply schema_message_shak|].
  intros Hrank. eexists. split.
  - apply load_data_first_check.
    apply (issubset_false_of_missing _ _ "rank"); [|done].
    unfold req_tw. set_solver.
  - by vm_compute.
Qed.

Lemma load_data_missing_columns_witness :
  ("rank" ∉ pd.columns frame_tw_sin_rank) ∧
  ∃ msg, @load_data latin1 frame_tw_sin_rank frame_tc_anio_texto frame_shak
         = Raise (ValueError msg) ∧
         names "rank" msg = true.
Proof.
  assert ("rank" ∉ pd.columns frame_tw_sin_rank) as Hrank.
  { apply (bool_decide_unpack _). by vm_compute. }
  split; [exact Hrank|].
  destruct (@load_data_missing_columns latin1 frame_tw_sin_rank
              frame_tc_anio_texto frame_shak) as (_ & _ & _ & _ & _ & _ & Hmsg).
  exact (Hmsg Hrank).
Defined.

(** C6 as stated fails when two tables are wanting: the topic-word table
    lacks [rank] and the assignment table lacks [song]; the error is the
    one of the topic-word table, and its message does not name [song]. *)
Lemma load_data_names_first_table_only :
  ("song" ∈ req_tc) ∧ ("song" ∉ pd.columns frame_tc_sin_song) ∧
  @load_data latin1 frame_tw_sin_rank frame_tc_sin_song frame_shak
    = Raise (ValueError
        "shakira_lda_topic_words.csv debe tener columnas ['rank', 'topic', 'weight', 'word']") ∧
  names "song"
    "shakira_lda_topic_words.csv debe tener columnas ['rank', 'topic', 'weight', 'word']"
    = false.
Proof.
  split; [unfold req_tc; set_solver|].
  split; [apply (bool_decide_unpack _); by vm_compute|].
  split; by vm_compute.
Qed.

(* ================================================================= *)
(** * Part III: further properties of the code *)
(* ================================================================= *)

(** ** More on the key normaliser *)

Section strip_facts.
Context `{UCD}.

Lemma lstrip_spaces_app (pad s : pystr) :
  Forall (λ c, isspace c = true) pad → str_lstrip (pad ++ s) = str_lstrip s.
Proof. induction 1 as [|c pad Hc _ IH]; [done|]. simpl. by rewrite Hc. Qed.

Lemma lstrip_spaces (pad : pystr) :
  Forall (λ c, isspace c = true) pad → str_lstrip pad = [].
Proof.
  intros Hpad. rewrite <- (app_nil_r pad). by rewrite lstrip_spaces_app.
Qed.

Lemma lstrip_nil_spaces (s : pystr) :
  str_lstrip s = [] → Forall (λ c, isspace c = true) s.
Proof.
  induction s as [|c s IH]; [constructor|]. simpl.
  destruct (isspace c) eqn:Hc; [|done]. intros Hs. constructor; auto.
Qed.

Lemma lstrip_app_nonempty (s t : pystr) :
  str_lstrip s ≠ [] → str_lstrip (s ++ t) = str_lstrip s ++ t.
Proof.
  induction s as [|c s IH]; [done|]. simpl.
  destruct (isspace c); [apply IH | done].
Qed.

Lemma strip_padding (pad s pad' : pystr) :
  Forall (λ c, isspace c = true) pad → Forall (λ c, isspace c = true) pad' →
  str_strip (pad ++ s ++ pad') = str_strip s.
Proof.
  intros Hpad Hpad'. unfold str_strip. rewrite lstrip_spaces_app by done.
  destruct (str_lstrip s) as [|c s'] eqn:Hs.
  - apply lstrip_nil_spaces in Hs.
    by rewrite (lstrip_spaces_app s pad' Hs), (lstrip_spaces pad' Hpad').
  - rewrite lstrip_app_nonempty by (by rewrite Hs). rewrite Hs.
    rewrite reverse_app, lstrip_spaces_app; [done|].
    by apply Forall_reverse.
Qed.
End strip_facts.

(** X1.  White space around a title does not change its key: a string
    padded on either side with characters that [str.isspace] accepts
    normalises to the same key as the string itself. *)
Theorem normalizar_ignores_padding `{UCD} (pad s pad' : pystr) :
  Forall (λ c, isspace c = true) pad → Forall (λ c, isspace c = true) pad' →
  normalizar (PStr (pad ++ s ++ pad')) = normalizar (PStr s).
Proof. intros Hpad Hpad'. unfold normalizar. by rewrite strip_padding. Qed.

Lemma normalizar_ignores_padding_witness :
  Forall (λ c, @isspace latin1 c = true) [0x09; 0x20]%N ∧
  Forall (λ c, @isspace latin1 c = true) [0xA0]%N ∧
  @normalizar latin1 (PStr ([0x09; 0x20] ++ titulo_dia_de_enero ++ [0xA0])%N)
  = @normalizar latin1 (PStr titulo_dia_de_enero).
Proof.
  assert (Forall (λ c, @isspace latin1 c = true) [0x09; 0x20]%N) as Hpad
    by (by repeat constructor).
  assert (Forall (λ c, @isspace latin1 c = true) [0xA0]%N) as Hpad'
    by (by repeat constructor).
  split; [exact Hpad|]. split; [exact Hpad'|].
  exact (@normalizar_ignores_padding latin1 _ titulo_dia_de_enero _ Hpad Hpad').
Defined.

(** X2.  A key holds no combining mark, and each of its characters comes
    out of the decomposition of a character of the stripped, lower-cased
    title. *)
Theorem normalizar_key_chars `{UCD} (s r : pystr) (c : N) :
  normalizar (PStr s) = PStr r → c ∈ r →
  combining c = 0%N ∧
  ∃ c0, c0 ∈ str_lower (str_strip s) ∧ c ∈ decomposition c0.
Proof.
  rewrite normalizar_str. intros [= <-].
  rewrite list_elem_of_filter. intros [Hc Hin]. split; [done|].
  unfold unicodedata.normalize_NFKD in Hin.
  rewrite canonical_order_perm in Hin.
  apply list_elem_of_bind in Hin as (c0 & Hin & Hc0). eauto.
Qed.

Lemma normalizar_key_chars_witness :
  @normalizar latin1 (PStr titulo_dia_de_enero)
  = PStr [0x64; 0x69; 0x61; 0x20; 0x64; 0x65; 0x20; 0x65; 0x6E; 0x65; 0x72; 0x6F]%N ∧
  @combining latin1 0x69%N = 0%N ∧
  ∃ c0, c0 ∈ @str_lower latin1 (@str_strip latin1 titulo_dia_de_enero) ∧
        0x69%N ∈ @decomposition latin1 c0.
Proof.
  split; [reflexivity|].
  apply (@normalizar_key_chars latin1 titulo_dia_de_enero
           [0x64; 0x69; 0x61; 0x20; 0x64; 0x65; 0x20; 0x65; 0x6E; 0x65; 0x72; 0x6F]%N
           0x69%N); [reflexivity|].
  apply (bool_decide_unpack _). by vm_compute.
Defined.

(** ** More on reading *)

(** X3.  When the UTF-8 read succeeds, or fails on decoding while the
    Latin-1 read succeeds, [leer_csv_seguro] makes the same reads and
    returns the same table as the cascade over UTF-8, Latin-1 and
    Windows-1252; and whenever it returns a table at all, that table is the
    one the last read it made returned. *)
Theorem leer_csv_seguro_agrees_on_first_two {A : Type}
    (read_csv : encoding → result A) :
  ((∃ df, read_csv utf_8 = Ok df) ∨
   (read_csv utf_8 = Raise UnicodeDecodeError ∧ ∃ df, read_csv latin_1 = Ok df) →
   leer_csv_seguro read_csv
   = decode_cascade_spec read_csv [utf_8; latin_1; cp1252] UnicodeDecodeError) ∧
  (∀ df, (leer_csv_seguro read_csv).2 = Ok df →
         ∃ enc, last (leer_csv_seguro read_csv).1 = Some enc ∧
                read_csv enc = Ok df).
Proof.
  split.
  - intros [[df Hutf]|[Hutf [df Hlat]]]; unfold leer_csv_seguro; simpl;
      rewrite Hutf; simpl; [done|]. by rewrite Hlat.
  - intros df. unfold leer_csv_seguro.
    destruct (read_csv utf_8) as [df0|e] eqn:Hutf; simpl.
    { intros [= <-]. eauto. }
    destruct (is_UnicodeDecodeError e); simpl; [eauto|].
    destruct (is_Exception e); simpl; [eauto | done].
Qed.

Lemma leer_csv_seguro_agrees_on_first_two_witness :
  ((∃ df, read_latin1_file utf_8 = Ok df) ∨
   (read_latin1_file utf_8 = Raise UnicodeDecodeError ∧
    ∃ df, read_latin1_file latin_1 = Ok df)) ∧
  leer_csv_seguro read_latin1_file
  = decode_cascade_spec read_latin1_file [utf_8; latin_1; cp1252] UnicodeDecodeError.
Proof.
  assert ((∃ df, read_latin1_file utf_8 = Ok df) ∨
          (read_latin1_file utf_8 = Raise UnicodeDecodeError ∧
           ∃ df, read_latin1_file latin_1 = Ok df)) as Hreads.
  { right. split; [reflexivity|]. by exists (). }
  split; [exact Hreads|].
  exact (proj1 (leer_csv_seguro_agrees_on_first_two read_latin1_file) Hreads).
Defined.

(** ** More on loading *)

Lemma bind_Ok {A B} (m : result A) (k : A → result B) (b : B) :
  m ≫= k = Ok b → ∃ a, m = Ok a ∧ k a = Ok b.
Proof. destruct m as [a|e]; [eauto | done]. Qed.







Ltac ok_inv H :=
  repeat match type of H with
         | mbind _ _ = Ok _ =>
             let a := fresh "a" in
             let Ha := fresh "Ha" in
             apply bind_Ok in H as (a & Ha & H)
         end.

(** X4.  When [load_data] returns, the three files had all their required
    columns, each table has one row per line read, every row carries the
    normalised form of its own title as join key, and the map of topic
    names is the one built from the assignment rows returned. *)
Theorem load_data_tables `{UCD} (tw tc ca : pd.DataFrame)
    (tw' : list TopicWord) (tc' : list SongTopics) (ca' : list Cancion)
    (m : gmap Z pyval) :
  load_data tw tc ca = Ok (tw', tc', ca', m) →
  issubset req_tw (pd.columns tw) = true ∧
  issubset req_tc (pd.columns tc) = true ∧
  issubset req_shak (pd.columns ca) = true ∧
  length tw' = length (pd.rows tw) ∧
  length tc' = length (pd.rows tc) ∧
  length ca' = length (pd.rows ca) ∧
  Forall (λ r, song_norm r = normalizar (song r)) tc' ∧
  Forall (λ c, c_song_norm c = normalizar (c_song c)) ca' ∧
  m = build_topic_name_map tc'.
Proof.
  intros Hload. unfold load_data, check_columns in Hload.
  destruct (issubset req_tw (pd.columns tw)); [|done].
  destruct (issubset req_tc (pd.columns tc)); [|done].
  destruct (issubset req_shak (pd.columns ca)); [|done].
  ok_inv Hload. injection Hload as <- <- <- <-.
  repeat split.
  - by rewrite length_fmap, length_seq.
  - by rewrite length_fmap, length_seq.
  - by rewrite length_fmap, length_seq.
  - apply Forall_fmap, Forall_forall. done.
  - apply Forall_fmap, Forall_forall. done.
Qed.

Lemma load_data_tables_witness :
  ∃ tw' tc' ca' m,
    @load_data latin1 frame_tw frame_tc_anio_texto frame_shak = Ok (tw', tc', ca', m) ∧
    length tc' = length (pd.rows frame_tc_anio_texto) ∧
    Forall (λ r, song_norm r = @normalizar latin1 (song r)) tc' ∧
    m = build_topic_name_map tc'.
Proof.
  assert (∃ x, @load_data latin1 frame_tw frame_tc_anio_texto frame_shak = Ok x)
    as [[[[tw' tc'] ca'] m] Hload] by (eexists; vm_compute; reflexivity).
  exists tw', tc', ca', m. split; [exact Hload|].
  destruct (@load_data_tables latin1 _ _ _ _ _ _ _ Hload)
    as (_ & _ & _ & _ & Hlen & _ & Hkey & _ & Hmap).
  split; [exact Hlen|]. split; [exact Hkey | exact Hmap].
Defined.



(** ** The map of topic names *)

Lemma to_dict_lookup (pairs : list (Z * pyval)) (m0 : gmap Z pyval) (k : Z) :
  foldl (λ m p, <[p.1 := p.2]> m) m0 pairs !! k
  = match last (filter (λ p, p.1 = k) pairs) with
    | Some p => Some p.2
    | None => m0 !! k
    end.
Proof.
  revert m0. induction pairs as [|p pairs IH]; intros m0; [done|].
  simpl. rewrite IH. destruct (decide (p.1 = k)) as [Hk|Hk].
  - rewrite filter_cons_True by done. rewrite last_cons.
    destruct (last (filter _ pairs)); [done|]. by rewrite Hk, lookup_insert_eq.
  - rewrite filter_cons_False by done.
    destruct (last (filter _ pairs)); [done|]. by rewrite lookup_insert_ne.
Qed.

Lemma drop_duplicates_step_elem (kept l : list (Z * pyval)) (p : Z * pyval) :
  p ∈ foldl (λ kept p, if existsb (pair_eqb p) kept then kept else kept ++ [p])
        kept l →
  p ∈ kept ∨ p ∈ l.
Proof.
  revert kept. induction l as [|q l IH]; intros kept; simpl; [by left|].
  intros [Hp|Hp]%IH; [|right; by right].
  destruct (existsb _ kept); [by left|].
  apply elem_of_app in Hp as [Hp|Hp%list_elem_of_singleton]; [by left|].
  right. rewrite Hp. by left.
Qed.

Lemma drop_duplicates_step_kept (kept l : list (Z * pyval)) (p : Z * pyval) :
  p ∈ kept →
  p ∈ foldl (λ kept p, if existsb (pair_eqb p) kept then kept else kept ++ [p])
        kept l.
Proof.
  revert kept. induction l as [|q l IH]; intros kept Hp; simpl; [done|].
  apply IH. destruct (existsb _ kept); [done|]. apply elem_of_app. by left.
Qed.

Lemma drop_duplicates_step_id (kept l : list (Z * pyval)) (p : Z * pyval) :
  p ∈ l →
  ∃ p', p'.1 = p.1 ∧
        p' ∈ foldl (λ kept p, if existsb (pair_eqb p) kept then kept else kept ++ [p])
               kept l.
Proof.
  revert kept. induction l as [|q l IH]; intros kept Hp.
  { by apply elem_of_nil in Hp. }
  apply elem_of_cons in Hp as [->|Hp]; [|by apply IH]. simpl.
  destruct (existsb (pair_eqb q) kept) eqn:Hq.
  - apply existsb_exists in Hq as (p' & Hp'%list_elem_of_In & Heq).
    exists p'. split; [|by apply drop_duplicates_step_kept].
    unfold pair_eqb in Heq. apply andb_true_iff in Heq as [Heq _].
    by apply bool_decide_eq_true in Heq.
  - exists q. split; [done|]. apply drop_duplicates_step_kept.
    apply elem_of_app. right. by left.
Qed.

(** X6.  The map of topic names has an entry for an id exactly when some
    assignment row gives that id a name; the name kept is one that a row
    gives to that id, namely that of the last pair of that id once the
    repeated pairs have been dropped. *)
Theorem topic_name_map_lookup (tc : list SongTopics) (k : Z) :
  build_topic_name_map tc !! k
    = snd <$> last (filter (λ p, p.1 = k) (topic_name_pairs tc)) ∧
  (is_Some (build_topic_name_map tc !! k) ↔
   ∃ r, r ∈ tc ∧ dominant_topic r = k ∧ is_nan (nombre_topic r) = false) ∧
  (∀ v, build_topic_name_map tc !! k = Some v →
        ∃ r, r ∈ tc ∧ dominant_topic r = k ∧ nombre_topic r = v).
Proof.
  assert (build_topic_name_map tc !! k
          = snd <$> last (filter (λ p, p.1 = k) (topic_name_pairs tc))) as Hlookup.
  { unfold build_topic_name_map. rewrite to_dict_lookup, lookup_empty.
    by destruct (last _). }
  assert (∀ p, p ∈ topic_name_pairs tc →
               ∃ r, r ∈ tc ∧ dominant_topic r = p.1 ∧ nombre_topic r = p.2 ∧
                    is_nan (nombre_topic r) = false) as Hrows.
  { intros p [Hp|Hp]%drop_duplicates_step_elem; [by apply elem_of_nil in Hp|].
    apply list_elem_of_filter in Hp as [Hnan Hp].
    apply list_elem_of_fmap in Hp as (r & -> & Hr). eauto. }
  split; [exact Hlookup|]. rewrite Hlookup. split; [split|].
  - intros [v Hv]. destruct (last _) as [p|] eqn:Hlast; [|done].
    apply last_Some_elem_of, list_elem_of_filter in Hlast as [Hk Hp].
    destruct (Hrows p Hp) as (r & Hr & Hid & _ & Hnan).
    exists r. by rewrite Hid.
  - intros (r & Hr & Hid & Hnan).
    destruct (drop_duplicates_step_id []
                (filter (λ p, is_nan p.2 = false)
                   ((λ r, (dominant_topic r, nombre_topic r)) <$> tc))
                (dominant_topic r, nombre_topic r)) as (p' & Hid' & Hp').
    { apply list_elem_of_filter. split; [done|].
      exact (list_elem_of_fmap_2 (λ r, (dominant_topic r, nombre_topic r)) tc r Hr). }
    assert (p' ∈ filter (λ p, p.1 = k) (topic_name_pairs tc)) as Hin.
    { apply list_elem_of_filter. split; [by rewrite Hid'|done]. }
    destruct (last _) as [p|] eqn:Hlast; [by eexists|].
    apply last_None in Hlast. rewrite Hlast in Hin. by apply elem_of_nil in Hin.
  - intros v. destruct (last _) as [p|] eqn:Hlast; [|done]. intros [= <-].
    apply last_Some_elem_of, list_elem_of_filter in Hlast as [Hk Hp].
    destruct (Hrows p Hp) as (r & Hr & Hid & Hname & _).
    exists r. by rewrite Hid.
Qed.

Lemma topic_name_map_lookup_witness :
  build_topic_name_map tc_dos_nombres !! 1 = Some (pal "Amor") ∧
  ∃ r, r ∈ tc_dos_nombres ∧ dominant_topic r = 1 ∧ nombre_topic r = pal "Amor".
Proof.
  assert (build_topic_name_map tc_dos_nombres !! 1 = Some (pal "Amor")) as Hmap
    by reflexivity.
  split; [exact Hmap|].
  exact (proj2 (proj2 (topic_name_map_lookup tc_dos_nombres 1)) _ Hmap).
Defined.

(** ** Finding the selected song *)

Lemma head_filter_first {A} (P : A → Prop) `{∀ x, Decision (P x)}
    (l : list A) (x : A) :
  head (filter P l) = Some x →
  ∃ i, l !! i = Some x ∧ P x ∧ ∀ j y, (j < i)%nat → l !! j = Some y → ¬ P y.
Proof.
  induction l as [|a l IH]; [done|].
  destruct (decide (P a)) as [Ha|Ha].
  - rewrite filter_cons_True by done. intros [= <-].
    exists O. split; [done|]. split; [done|]. intros; lia.
  - rewrite filter_cons_False by done. intros (i & Hi & Hx & Hfirst)%IH.
    exists (S i). split; [done|]. split; [done|].
    intros [|j] y Hj Hy; [by injection Hy as <-|].
    apply (Hfirst j y); [lia | done].
Qed.

Lemma head_filter_found {A} (P : A → Prop) `{∀ x, Decision (P x)}
    (l : list A) (j : nat) (x : A) :
  l !! j = Some x → P x → is_Some (head (filter P l)).
Proof.
  intros Hj Hx.
  assert (x ∈ filter P l) as Hin.
  { apply list_elem_of_filter. split; [done|]. by eapply list_elem_of_lookup_2. }
  destruct (filter P l); [by apply elem_of_nil in Hin | by eexists].
Qed.

Lemma py_eqb_refl (v : pyval) : v ≠ PNaN → py_eqb v v = true.
Proof.
  destruct v as [s|q|]; simpl; [| |done]; intros _.
  - by apply bool_decide_eq_true.
  - by apply Qeq_bool_iff.
Qed.

Lemma py_eqb_nan (v : pyval) : py_eqb v PNaN = false.
Proof. by destruct v. Qed.

Lemma normalizar_nan `{UCD} (v : pyval) : normalizar v = PNaN ↔ v = PNaN.
Proof. by destruct v. Qed.

(** X7.  In a table whose rows carry the normalised form of their title as
    key, selecting the title of a row finds a row unless the title is
    missing: the row found is the first whose key equals that of the
    selected row, which need not be the selected row itself when two
    titles share a key.  A missing title is never found, NaN being equal
    to nothing. *)
Theorem fila_de_selected `{UCD} (tc : list SongTopics) (j : nat) (r : SongTopics) :
  Forall (λ r, song_norm r = normalizar (song r)) tc →
  tc !! j = Some r →
  (song r ≠ PNaN →
   ∃ i r0, fila_de tc (song r) = Some r0 ∧ tc !! i = Some r0 ∧ (i ≤ j)%nat ∧
           py_eqb (song_norm r0) (song_norm r) = true ∧
           ∀ i' r', (i' < i)%nat → tc !! i' = Some r' →
                    py_eqb (song_norm r') (song_norm r) = false) ∧
  (song r = PNaN → fila_de tc (song r) = None).
Proof.
  intros Hkeys Hj.
  assert (song_norm r = normalizar (song r)) as Hkey.
  { rewrite Forall_forall in Hkeys. apply Hkeys. by eapply list_elem_of_lookup_2. }
  unfold fila_de. rewrite <- Hkey. split.
  - intros Hsong.
    assert (py_eqb (song_norm r) (song_norm r) = true) as Hself.
    { apply py_eqb_refl. rewrite Hkey. by rewrite normalizar_nan. }
    destruct (head_filter_found
                (λ r', py_eqb (song_norm r') (song_norm r) = true) tc j r Hj Hself)
      as [r0 Hr0].
    destruct (head_filter_first _ tc r0 Hr0) as (i & Hi & Heq & Hfirst).
    exists i, r0. split; [done|]. split; [done|]. split.
    + destruct (decide (j < i)%nat) as [Hlt|]; [|lia].
      by destruct (Hfirst j r Hlt Hj).
    + split; [done|]. intros i' r' Hlt Hi'.
      apply not_true_is_false. by apply (Hfirst i' r').
  - intros Hsong. rewrite Hkey, Hsong. simpl.
    assert (filter (λ r', py_eqb (song_norm r') PNaN = true) tc = []) as ->; [|done].
    apply filter_none. intros r' _. by rewrite py_eqb_nan.
Qed.

Lemma fila_de_selected_witness :
  Forall (λ r, song_norm r = @normalizar latin1 (song r)) tc_ejemplo ∧
  tc_ejemplo !! 1%nat = Some (fila "Dia de Enero" (Some 2005) 2 "Nostalgia" (55 # 100)
                                (5 # 100) (55 # 100) (15 # 100) (15 # 100) (10 # 100)) ∧
  ∃ i r0, @fila_de latin1 tc_ejemplo (pal "Dia de Enero") = Some r0 ∧
          tc_ejemplo !! i = Some r0 ∧ (i ≤ 1)%nat.
Proof.
  assert (Forall (λ r, song_norm r = @normalizar latin1 (song r)) tc_ejemplo) as Hkeys
    by (by repeat constructor).
  split; [exact Hkeys|]. split; [reflexivity|].
  destruct (@fila_de_selected latin1 tc_ejemplo 1 _ Hkeys eq_refl) as [Hfound _].
  destruct Hfound as (i & r0 & Hfila & Hi & Hle & _); [discriminate|].
  exists i, r0. split; [exact Hfila|]. split; [exact Hi | exact Hle].
Defined.

(** ** The distribution of one song *)

Lemma topic_values_unfold (m : gmap Z pyval) (row : SongTopics) :
  topic_values m row
  = Ok (dict_set (dict_set (dict_set (dict_set (dict_set []
          (topic_label m 1) (Topic_1 row))
          (topic_label m 2) (Topic_2 row))
          (topic_label m 3) (Topic_3 row))
          (topic_label m 4) (Topic_4 row))
          (topic_label m 5) (Topic_5 row)).
Proof. reflexivity. Qed.

Lemma dict_set_length {V} (d : list (pyval * V)) (k : pyval) (v : V) :
  (length d ≤ length (dict_set d k v) ≤ S (length d))%nat ∧
  (1 ≤ length (dict_set d k v))%nat.
Proof.
  induction d as [|[k' v'] d IH]; simpl; [lia|].
  destruct (py_eqb k' k); simpl; lia.
Qed.

(** X8.  The distribution of a song never raises and has between one and
    five entries.  When the labels of the five topics (the name in the map,
    or "Topic i" for an id the map lacks) differ from one another, it lists
    them in the order 1..5, each with the probability of its own column;
    two topics under one label share one entry. *)
Theorem topic_values_entries (m : gmap Z pyval) (row : SongTopics) :
  ∃ d, topic_values m row = Ok d ∧ (1 ≤ length d ≤ 5)%nat ∧
       ((∀ i j, 1 ≤ i → i < j → j ≤ 5 →
                py_eqb (topic_label m i) (topic_label m j) = false) →
        d = [ (topic_label m 1, Topic_1 row); (topic_label m 2, Topic_2 row);
              (topic_label m 3, Topic_3 row); (topic_label m 4, Topic_4 row);
              (topic_label m 5, Topic_5 row) ]).
Proof.
  eexists. split; [apply topic_values_unfold|]. split.
  - repeat match goal with
           | |- context [dict_set ?d ?k ?v] =>
               lazymatch goal with
               | _ : (length d ≤ length (dict_set d k v) ≤ _)%nat ∧ _ |- _ => fail
               | _ => pose proof (dict_set_length d k v)
               end
           end.
    simpl in *. lia.
  - intros Hdistinct.
    repeat (progress (cbn [dict_set]; rewrite ?Hdistinct by lia)). done.
Qed.

Lemma topic_values_entries_witness :
  (∀ i j, 1 ≤ i → i < j → j ≤ 5 →
          py_eqb (topic_label (build_topic_name_map tc_ejemplo) i)
                 (topic_label (build_topic_name_map tc_ejemplo) j) = false) ∧
  ∃ d, topic_values (build_topic_name_map tc_ejemplo)
         (fila "Loba" (Some 2009) 1 "Love" (70 # 100)
            (70 # 100) (10 # 100) (10 # 100) (5 # 100) (5 # 100)) = Ok d ∧
       d = [ (pal "Love", Some (70 # 100)%Q); (pal "Nostalgia", Some (10 # 100)%Q);
             (pal "Topic 3", Some (10 # 100)%Q); (pal "Topic 4", Some (5 # 100)%Q);
             (pal "Topic 5", Some (5 # 100)%Q) ].
Proof.
  assert (∀ i j, 1 ≤ i → i < j → j ≤ 5 →
            py_eqb (topic_label (build_topic_name_map tc_ejemplo) i)
                   (topic_label (build_topic_name_map tc_ejemplo) j) = false)
    as Hdistinct.
  { intros i j Hi1 Hij Hj5.
    assert (i = 1 ∨ i = 2 ∨ i = 3 ∨ i = 4) as Hi by lia.
    assert (j = 2 ∨ j = 3 ∨ j = 4 ∨ j = 5) as Hj by lia.
    destruct Hi as [->|[->|[->| ->]]], Hj as [->|[->|[->| ->]]];
      first [reflexivity | lia]. }
  split; [exact Hdistinct|].
  destruct (topic_values_entries (build_topic_name_map tc_ejemplo)
              (fila "Loba" (Some 2009) 1 "Love" (70 # 100)
                 (70 # 100) (10 # 100) (10 # 100) (5 # 100) (5 # 100)))
    as (d & Hd & _ & Hlist).
  exists d. split; [exact Hd|]. rewrite (Hlist Hdistinct). reflexivity.
Defined.

(** ** The topic selector *)

Lemma unique_step_elem (seen l : list Z) (x : Z) :
  x ∈ foldl (λ seen x, if bool_decide (x ∈ seen) then seen else seen ++ [x]) seen l
  ↔ x ∈ seen ∨ x ∈ l.
Proof.
  revert seen. induction l as [|y l IH]; intros seen; simpl.
  { rewrite elem_of_nil. tauto. }
  rewrite IH, elem_of_cons. case_bool_decide as Hy.
  - split; [tauto|]. intros [?|[->|?]]; auto.
  - rewrite elem_of_app, list_elem_of_singleton. tauto.
Qed.

Lemma unique_step_NoDup (seen l : list Z) :
  NoDup seen →
  NoDup (foldl (λ seen x, if bool_decide (x ∈ seen) then seen else seen ++ [x]) seen l).
Proof.
  revert seen. induction l as [|y l IH]; intros seen Hseen; simpl; [done|].
  apply IH. case_bool_decide as Hy; [done|].
  apply NoDup_app. split; [done|]. split; [|apply NoDup_singleton].
  intros x Hx ->%list_elem_of_singleton. done.
Qed.

Lemma topic_options_elem (tw : list TopicWord) (t : Z) :
  t ∈ topic_options tw ↔ ∃ r, r ∈ tw ∧ topic r = t.
Proof.
  unfold topic_options, unique.
  rewrite merge_sort_Permutation, unique_step_elem, elem_of_nil, list_elem_of_fmap.
  split.
  - intros [[]|(r & -> & Hr)]. eauto.
  - intros (r & Hr & <-). right. eauto.
Qed.

(** X9.  The topics offered by the selector are the topics of the
    topic-word table, each once, in strictly ascending order; and for any
    topic offered, with a limit of at least one and a sorting routine that
    sorts, the keyword table is not empty. *)
Theorem topic_options_selectable `{Argsort} (tw : list TopicWord) :
  StronglySorted Z.lt (topic_options tw) ∧
  (∀ t, t ∈ topic_options tw ↔ ∃ r, r ∈ tw ∧ topic r = t) ∧
  (argsort_sorts → ∀ t n, t ∈ topic_options tw → (1 ≤ n)%nat →
   palabras tw t n ≠ []).
Proof.
  split; [|split; [apply topic_options_elem|]].
  - apply Sorted_le_NoDup_lt.
    + apply (StronglySorted_merge_sort _).
    + unfold topic_options. rewrite merge_sort_Permutation.
      apply unique_step_NoDup, NoDup_nil_2.
  - intros Hsorts t n (r & Hr & Ht)%topic_options_elem Hn Hnil.
    apply (f_equal length) in Hnil. unfold palabras, palabras_filas in Hnil.
    rewrite length_fmap, length_take, (sort_by_weight_perm Hsorts) in Hnil.
    assert (r ∈ filter (λ r, topic r = t) tw) as Hin
      by (by apply list_elem_of_filter).
    destruct (filter (λ r, topic r = t) tw); [by apply elem_of_nil in Hin|].
    simpl in Hnil. lia.
Qed.

Lemma topic_options_selectable_witness :
  @argsort_sorts stable_argsort ∧ (1 ∈ topic_options tw_empate) ∧ (1 ≤ 5)%nat ∧
  @palabras stable_argsort tw_empate 1 5 ≠ [].
Proof.
  assert (1 ∈ topic_options tw_empate) as Hin
    by (apply (bool_decide_unpack _); by vm_compute).
  split; [exact stable_argsort_sorts|]. split; [exact Hin|]. split; [lia|].
  apply (proj2 (proj2 (@topic_options_selectable stable_argsort tw_empate))
           stable_argsort_sorts 1 5%nat Hin).
  lia.
Defined.

(** X13.  Raising the limit only adds keywords at the end: the table for a
    limit [n] is the first [n] rows of the table for any greater limit. *)
Theorem palabras_prefix `{Argsort} (tw : list TopicWord) (t : Z) (n n' : nat) :
  (n ≤ n')%nat → palabras tw t n = take n (palabras tw t n').
Proof.
  intros Hle. unfold palabras, palabras_filas.
  rewrite <- fmap_take, take_take. by rewrite Nat.min_l.
Qed.

Lemma palabras_prefix_witness :
  (1 ≤ 2)%nat ∧
  @palabras stable_argsort tw_empate 1 1
  = take 1 (@palabras stable_argsort tw_empate 1 2).
Proof.
  split; [lia|]. apply (@palabras_prefix stable_argsort tw_empate 1 1 2). lia.
Defined.

(** ** The table of topic names *)

(** X10.  From the items of a map of names, in whatever order the dict
    holds them, and with a sorting routine that sorts: an empty map makes
    [df_names] raise a [KeyError]; otherwise the table lists each entry of
    the map once, in strictly ascending order of the ids. *)
Theorem df_names_sorted `{Argsort} (m : gmap Z pyval) (items : list (Z * pyval)) :
  argsort_sorts → items ≡ₚ map_to_list m →
  (m = ∅ → df_names items = Raise (KeyError "topic_id")) ∧
  (m ≠ ∅ →
   ∃ out, df_names items = Ok out ∧ StronglySorted Z.lt out.*1 ∧
          ∀ k v, (k, v) ∈ out ↔ m !! k = Some v).
Proof.
  intros Hsorts Hitems. split.
  - intros ->. rewrite map_to_list_empty in Hitems.
    apply Permutation_nil_r in Hitems. by rewrite Hitems.
  - intros Hm. eexists. split.
    { unfold df_names. destruct items as [|p items]; [|done].
      symmetry in Hitems. apply Permutation_nil_r, map_to_list_empty_iff in Hitems.
      done. }
    pose proof (nargsort_perm Hsorts Z.leb (λ r : Z * pyval, Some r.1)
                  Zleb_total Zleb_trans true items) as Hperm.
    pose proof (nargsort_sorted Hsorts Z.leb (λ r : Z * pyval, Some r.1)
                  Zleb_total Zleb_trans true items) as Hsorted.
    fold (pd.sort_values Z.leb (λ r : Z * pyval, Some r.1) true items)
      in Hperm, Hsorted.
    split.
    + apply Sorted_le_NoDup_lt.
      * eapply (StronglySorted_fmap fst); [|exact Hsorted].
        intros a b Hab. simpl in Hab. by apply Is_true_true, Z.leb_le in Hab.
      * rewrite Hperm, Hitems. apply NoDup_fst_map_to_list.
    + intros k v. by rewrite Hperm, Hitems, elem_of_map_to_list.
Qed.

Lemma df_names_sorted_witness :
  @argsort_sorts stable_argsort ∧
  ∃ out, @df_names stable_argsort (map_to_list (build_topic_name_map tc_ejemplo))
         = Ok out ∧
         StronglySorted Z.lt out.*1.
Proof.
  split; [exact stable_argsort_sorts|].
  destruct (@df_names_sorted stable_argsort (build_topic_name_map tc_ejemplo)
              (map_to_list (build_topic_name_map tc_ejemplo))
              stable_argsort_sorts (Permutation_refl _)) as [_ Hfull].
  destruct Hfull as (out & Hout & Hsorted & _).
  { intros Hempty. apply (f_equal (λ m : gmap Z pyval, m !! 1)) in Hempty.
    discriminate Hempty. }
  exists out. split; [exact Hout | exact Hsorted].
Defined.

(** ** Bounds and shape of the yearly means *)





Lemma fold_cols_length {A} (cols : list (A → float)) (g : list A)
    (accs : list pd.group_acc) :
  length accs = length cols →
  length (foldl (λ accs r, zip_with (λ a col, pd.acc_add a (col r)) accs cols)
            accs g)
  = length cols.
Proof.
  revert accs. induction g as [|r g IH]; intros accs Hlen; [done|].
  simpl. apply IH. rewrite length_zip_with, Hlen. lia.
Qed.

(** X12.  With a sorting routine that sorts, the table of all topics has
    its years in strictly ascending order, a year being listed exactly when
    some row has it; next to each year stand five values, the i-th being
    the mean of column [Topic_i] over the rows of that year, missing cells
    left out. *)
Theorem df_all_rows `{Argsort} (tc : list SongTopics) :
  argsort_sorts →
  StronglySorted Z.lt (df_all tc).*1 ∧
  (∀ y, y ∈ (df_all tc).*1 ↔ ∃ r, r ∈ tc ∧ year r = Some y) ∧
  (∀ y ms, (y, ms) ∈ df_all tc →
     length ms = 5%nat ∧
     ∀ j col, topic_columns !! j = Some col →
              ms !! j = Some (nanmean (col <$> filter (λ r, year r = Some y) tc))).
Proof.
  intros Hsorts. rewrite (df_all_groups Hsorts), groupby_mean_years.
  split; [apply group_keys_sorted|]. split.
  - intros y. by rewrite group_keys_elem, groupby_agg_is_Some.
  - intros y ms. unfold pd.groupby_mean.
    intros (y' & [= -> ->] & _)%list_elem_of_fmap.
    rewrite groupby_agg_default. split.
    + rewrite length_fmap, fold_cols_length; done.
    + intros j col Hcol. rewrite list_lookup_fmap.
      rewrite (fold_cols_lookup topic_columns j col _ _ (0%Q, O) Hcol)
        by (do 5 (destruct j as [|j]; [done|]); done).
      simpl. f_equal. rewrite <- acc_mean_nanmean. by rewrite foldl_fmap.
Qed.

Lemma df_all_rows_witness :
  @argsort_sorts stable_argsort ∧
  StronglySorted Z.lt (@df_all stable_argsort tc_sin_anio).*1 ∧
  (∀ y, y ∈ (@df_all stable_argsort tc_sin_anio).*1 ↔
        ∃ r, r ∈ tc_sin_anio ∧ year r = Some y).
Proof.
  split; [exact stable_argsort_sorts|].
  destruct (@df_all_rows stable_argsort tc_sin_anio stable_argsort_sorts)
    as (Hsorted & Hyears & _).
  split; [exact Hsorted | exact Hyears].
Defined.

(** ** When loading succeeds *)








